(** * qdrant_rag: the indexing pipeline and the retrieval service

    A shallow embedding of [qdrant_indexer.py] and [qdrant_retriever.py].
    Python values are modelled as follows:
    - [str] is [string]; its characters are the code points below 256;
    - [int] is [Z]; [float] (scores, timestamps) is [Q], the finite floats
      being rationals; the code copies and compares them, and the one
      place where it computes with them rounds to the nearest double;
    - a [dict] with string keys is a [gmap string _];
    - an exception is a value of [exn], raised through [res];
    - the services the scripts talk to (MinIO, Qdrant, the embedding model,
      PyPDF2, hashlib, the wall clock, the tracker file) are an explicit
      environment and an explicit world state.

    What is left out: the lines printed by the indexer and the lines the
    retriever logs at level info; failures of the embedding model, of the
    clock and of the write of the tracker file; failures of the calls that
    list, delete and create the collection; a tracker file that parses
    but does not hold what [save_processed_files] writes; the floats that
    are not finite. *)

From Stdlib Require Import ZArith QArith Ascii String DecimalString List Sorted.
From Stdlib.Strings Require Import Byte.
From Stdlib Require DecimalPos DecimalZ.
From stdpp Require Import gmap strings list fin_maps.

Local Close Scope Q_scope.
Local Open Scope Z_scope.
Local Set Warnings "-clear-no-such-hyp".

(** ** Python primitives *)

Module Py.

(** The exceptions the two scripts can meet. *)
Inductive exn : Type :=
  | ValueError
  | KeyError (key : string)
  | AttributeError
  | ValidationError
  | JSONDecodeError
  | S3Error
  | PdfReadError
  | UnexpectedResponse.

Inductive res (A : Type) : Type :=
  | Ok (a : A)
  | Raise (e : exn).
Arguments Ok {A} a.
Arguments Raise {A} e.

Definition bind {A B} (r : res A) (k : A -> res B) : res B :=
  match r with
  | Ok a => k a
  | Raise e => Raise e
  end.

Definition len (s : string) : Z := Z.of_nat (String.length s).

(** [range(start, stop, step)]: the length is fixed when the range object
    is built, the k-th element is [start + k * step]; a zero step is a
    [ValueError]. *)
Definition range_len (start stop step : Z) : Z :=
  if 0 <? step then
    if start <? stop then (stop - start - 1) / step + 1 else 0
  else
    if stop <? start then (start - stop - 1) / (- step) + 1 else 0.

Definition range (start stop step : Z) : res (list Z) :=
  if step =? 0 then Raise ValueError
  else Ok (map (fun k : nat => start + Z.of_nat k * step)
               (seq 0 (Z.to_nat (range_len start stop step)))).

(** A slice bound: negative bounds count from the end, and every bound is
    clamped to [0, len]. *)
Definition slice_bound (n k : Z) : Z :=
  if k <? 0 then Z.max 0 (k + n) else Z.min k n.

(** [s[i:j]] *)
Definition slice (s : string) (i j : Z) : string :=
  let lo := slice_bound (len s) i in
  let hi := slice_bound (len s) j in
  substring (Z.to_nat lo) (Z.to_nat (hi - lo)) s.

(** [str.join] with the empty separator. *)
Definition join (ss : list string) : string :=
  fold_right String.append EmptyString ss.

(** [str.lower] on the code points below 256: A-Z, and the Latin-1
    capitals 0xC0-0xDE except the multiplication sign 0xD7. *)
Definition lower_char (c : ascii) : ascii :=
  let n := N_of_ascii c in
  if ((65 <=? n) && (n <=? 90)
      || (192 <=? n) && (n <=? 222) && negb (n =? 215))%N
  then ascii_of_N (n + 32) else c.

Fixpoint lower (s : string) : string :=
  match s with
  | EmptyString => EmptyString
  | String c s' => String (lower_char c) (lower s')
  end.

(** [s.endswith(suffix)] *)
Definition endswith (s suffix : string) : bool :=
  (String.length suffix <=? String.length s)%nat
  && String.eqb
       (substring (String.length s - String.length suffix)
                  (String.length suffix) s)
       suffix.

(** [str.isspace] on the code points below 256. *)
Definition isspace (c : ascii) : bool :=
  let n := N_of_ascii c in
  ((9 <=? n) && (n <=? 13) || (28 <=? n) && (n <=? 32)
   || (n =? 133) || (n =? 160))%N.

Fixpoint lstrip (s : string) : string :=
  match s with
  | EmptyString => EmptyString
  | String c s' => if isspace c then lstrip s' else s
  end.

Fixpoint rstrip (s : string) : string :=
  match s with
  | EmptyString => EmptyString
  | String c s' =>
      match rstrip s' with
      | EmptyString => if isspace c then EmptyString else String c EmptyString
      | r => String c r
      end
  end.

(** [s.strip()] *)
Definition strip (s : string) : string := rstrip (lstrip s).

(** [s.encode()]: UTF-8, one byte below 128 and two bytes from 128 to 255. *)
Definition encode_char (c : ascii) : list byte :=
  let n := N_of_ascii c in
  if (n <? 128)%N then [byte_of_ascii c]
  else [byte_of_ascii (ascii_of_N (192 + n / 64));
        byte_of_ascii (ascii_of_N (128 + n mod 64))].

Fixpoint encode (s : string) : list byte :=
  match s with
  | EmptyString => []
  | String c s' => encode_char c ++ encode s'
  end.

(** [str(i)] for an [int]. *)
Definition str_of_int (i : Z) : string := NilZero.string_of_int (Z.to_int i).

(** [bytes.hex()], as [hexdigest] renders a digest. *)
Definition hex_digit (n : N) : ascii :=
  if (n <? 10)%N then ascii_of_N (48 + n) else ascii_of_N (87 + n).

Fixpoint hex (bs : list byte) : string :=
  match bs with
  | [] => EmptyString
  | b :: bs' =>
      let n := Byte.to_N b in
      String (hex_digit (n / 16)) (String (hex_digit (n mod 16)) (hex bs'))
  end.

(** [int(s, 16)] on a string of hexadecimal digits; the empty string and
    any other character are a [ValueError] (the signs, prefixes,
    underscores and blanks that [int] also reads never occur in a
    rendered digest). *)
Definition hex_value (c : ascii) : option Z :=
  let n := Z.of_N (N_of_ascii c) in
  if (48 <=? n) && (n <=? 57) then Some (n - 48)
  else if (97 <=? n) && (n <=? 102) then Some (n - 87)
  else if (65 <=? n) && (n <=? 70) then Some (n - 55)
  else None.

Fixpoint int16_from (acc : Z) (s : string) : res Z :=
  match s with
  | EmptyString => Ok acc
  | String c s' =>
      match hex_value c with
      | Some d => int16_from (16 * acc + d) s'
      | None => Raise ValueError
      end
  end.

Definition int16 (s : string) : res Z :=
  match s with
  | EmptyString => Raise ValueError
  | _ => int16_from 0 s
  end.

(** The values a payload or a JSON document holds. *)
#[warnings="-register-all"]
Inductive json : Type :=
  | JNull
  | JBool (b : bool)
  | JInt (n : Z)
  | JFloat (q : Q)
  | JStr (s : string)
  | JList (l : list json)
  | JObj (m : gmap string json).

(** [d.get(key, default)]: only a [dict] has the method. *)
Definition get_or (d : json) (key : string) (dflt : json) : res json :=
  match d with
  | JObj m => Ok (default dflt (m !! key))
  | _ => Raise AttributeError
  end.

(** [float] arithmetic. A finite double is the rational it denotes; an
    operation gives the double nearest to the exact result, ties going to
    the even mantissa, with 53 bits of mantissa and the subnormals below
    2^-1022. A result beyond the largest double, which Python turns into
    [inf], is left out. *)
Definition round_half_even (n d : Z) : Z :=
  let q := n / d in
  let r := n mod d in
  if 2 * r <? d then q
  else if d <? 2 * r then q + 1
  else if Z.even q then q else q + 1.

(** The double nearest to n/d: [l] is the binary exponent of n/d, [e] the
    exponent of the last bit of the mantissa, [m] the mantissa. *)
Definition double_of_fraction (n d : positive) : Q :=
  let k := Z.log2 (Z.pos n) - Z.log2 (Z.pos d) in
  let l := if Z.pos d * 2 ^ Z.max k 0 <=? Z.pos n * 2 ^ Z.max (- k) 0
           then k else k - 1 in
  let e := Z.max (l - 52) (-1074) in
  let m := round_half_even (Z.pos n * 2 ^ Z.max (- e) 0)
                           (Z.pos d * 2 ^ Z.max e 0) in
  Qred (Qmake (m * 2 ^ Z.max e 0) (Z.to_pos (2 ^ Z.max (- e) 0))).

Definition round_double (q : Q) : Q :=
  match Qnum q with
  | 0 => 0%Q
  | Z.pos n => double_of_fraction n (Qden q)
  | Z.neg n => Qopp (double_of_fraction n (Qden q))
  end.

(** [a - b] and [a * b] on floats. *)
Definition float_sub (a b : Q) : Q := round_double (a - b)%Q.

Definition float_mul (a b : Q) : Q := round_double (a * b)%Q.

End Py.

Import Py.

Notation "x <- c1 ;; c2" := (Py.bind c1 (fun x => c2))
  (at level 100, c1 at next level, right associativity).

(** ** The services and the state they hold *)

Module Services.

(** What [processed_files.json] keeps for one file name. *)
Record Entry : Type := {
  hash : string;
  last_indexed : Q;
}.

(** The tracker file on disk: absent, present but not parseable as JSON,
    or holding the mapping [save_processed_files] wrote. *)
Inductive StoreFile : Type :=
  | Missing
  | Corrupt
  | Stored (processed : gmap string Entry).

(** [PointStruct(id, vector, payload)] *)
Record PointStruct : Type := {
  point_id : Z;
  vector : list Q;
  point_payload : gmap string json;
}.

(** A hit of [qdrant_client.search]; the payload of a point is optional. *)
Record ScoredPoint : Type := {
  hit_id : Z;
  hit_score : Q;
  hit_payload : option (gmap string json);
}.

(** The records of the collection, by point identifier. *)
Abbreviation Collection := (gmap Z (list Q * gmap string json)).

Inductive LogRecord : Type :=
  | LogWarning (e : exn)
  | LogError (e : exn).

(** The collaborators, as the scripts use them. *)
Record Env : Type := {
  (** [FORCE_REINDEX]; the script ships with [True], the incremental mode
      is [False]. *)
  FORCE_REINDEX : bool;
  (** [hashlib.md5(data).digest()] *)
  md5 : list byte -> list byte;
  (** [embedding_model.encode(text).tolist()] *)
  embed : string -> list Q;
  (** [PdfReader(stream)] followed by [extract_text()] on every page. *)
  PdfReader : list byte -> res (list string);
  (** the reading of the wall clock at the n-th call of [time.time()] *)
  wall_clock : nat -> Q;
  (** whether Qdrant accepts the n-th upsert request it receives *)
  upsert_accepted : nat -> bool;
  (** [qdrant_client.search(collection_name, query_vector, limit,
      score_threshold)] *)
  qdrant_search :
    option Collection -> list Q -> option Z -> option Q -> res (list ScoredPoint);
  (** what pydantic makes of a value that is not of the declared type of a
      [str] or an [int] field ([None]: a validation error) *)
  lax_str : json -> option string;
  lax_int : json -> option Z;
}.

Record World : Type := {
  (** the objects of the MinIO bucket, [None] when the bucket is absent *)
  bucket : option (gmap string (list byte));
  tracker_file : StoreFile;
  (** the Qdrant collection, [None] when it does not exist *)
  collection : option Collection;
  (** the number of calls of [time.time()] so far *)
  clock : nat;
  (** the upsert requests sent to Qdrant so far, oldest first *)
  upserts : list (list PointStruct);
  (** the warnings and errors logged so far, oldest first *)
  logged : list LogRecord;
}.

Definition set_tracker_file (f : StoreFile) (w : World) : World :=
  {| bucket := bucket w; tracker_file := f; collection := collection w;
     clock := clock w; upserts := upserts w; logged := logged w |}.

Definition set_collection (c : option Collection) (w : World) : World :=
  {| bucket := bucket w; tracker_file := tracker_file w; collection := c;
     clock := clock w; upserts := upserts w; logged := logged w |}.

Definition set_clock (n : nat) (w : World) : World :=
  {| bucket := bucket w; tracker_file := tracker_file w;
     collection := collection w; clock := n; upserts := upserts w;
     logged := logged w |}.

Definition set_upserts (u : list (list PointStruct)) (w : World) : World :=
  {| bucket := bucket w; tracker_file := tracker_file w;
     collection := collection w; clock := clock w; upserts := u;
     logged := logged w |}.

Definition set_logged (l : list LogRecord) (w : World) : World :=
  {| bucket := bucket w; tracker_file := tracker_file w;
     collection := collection w; clock := clock w; upserts := upserts w;
     logged := l |}.

(** Code that reads and writes the world and may raise. *)
Definition M (A : Type) : Type := World -> res A * World.

Definition ret {A} (a : A) : M A := fun w => (Ok a, w).

Definition raise {A} (e : exn) : M A := fun w => (Raise e, w).

Definition mbind {A B} (m : M A) (k : A -> M B) : M B :=
  fun w =>
    match m w with
    | (Ok a, w') => k a w'
    | (Raise e, w') => (Raise e, w')
    end.

Definition lift {A} (r : res A) : M A := fun w => (r, w).

(** A [for] loop that threads the loop variables through its body. *)
Fixpoint for_each {A S} (body : A -> S -> M S) (l : list A) (s : S) : M S :=
  match l with
  | [] => ret s
  | a :: l' => mbind (body a s) (for_each body l')
  end.

(** [enumerate(l)] *)
Definition enumerate {A} (l : list A) : list (Z * A) :=
  imap (fun i a => (Z.of_nat i, a)) l.

Section WithEnv.

Context (E : Env).

(** [time.time()]: it reads the clock and never raises. *)
Definition tick (w : World) : Q * World :=
  (wall_clock E (clock w), set_clock (S (clock w)) w).

Definition time_time : M Q :=
  fun w => let '(now, w') := tick w in (Ok now, w').

(** [logger.warning] and [logger.error] *)
Definition log (r : LogRecord) : M unit :=
  fun w => (Ok tt, set_logged (logged w ++ [r]) w).

(** An upsert replaces the record of every identifier it carries. *)
Definition store_points (pts : list PointStruct) (c : Collection) : Collection :=
  foldl (fun c p => <[point_id p := (vector p, point_payload p)]> c) c pts.

(** [qdrant_client.upsert(collection_name, points)] *)
Definition qdrant_upsert (pts : list PointStruct) : M unit :=
  fun w =>
    let w' := set_upserts (upserts w ++ [pts]) w in
    match collection w with
    | Some c =>
        if upsert_accepted E (length (upserts w))
        then (Ok tt, set_collection (Some (store_points pts c)) w')
        else (Raise UnexpectedResponse, w')
    | None => (Raise UnexpectedResponse, w')
    end.

End WithEnv.

End Services.

Import Services.

Notation "x <~ c1 ;; c2" := (Services.mbind c1 (fun x => c2))
  (at level 100, c1 at next level, right associativity).

(** ** The indexer, [qdrant_indexer.py] *)

Module Indexer.

Definition BUCKET_NAME : string := "index".
Definition CHUNK_SIZE : Z := 500.

(** How [index_document] ends for one file. The script prints the reason
    and returns; the reasons are kept apart here. *)
Inductive Outcome : Type :=
  | SkippedUnchanged
  | SkippedUnsupported
  | SkippedEmpty
  | Indexed
  | Failed (e : exn).

(** [get_file_hash(file_stream)] *)
Definition get_file_hash (E : Env) (data : list byte) : string :=
  Py.hex (md5 E data).

(** [load_processed_files()] *)
Definition load_processed_files : M (gmap string Entry) :=
  fun w =>
    match tracker_file w with
    | Missing => (Ok ∅, w)
    | Corrupt => (Raise JSONDecodeError, w)
    | Stored processed => (Ok processed, w)
    end.

(** [save_processed_files(processed_files)] *)
Definition save_processed_files (processed_files : gmap string Entry) : M unit :=
  fun w => (Ok tt, set_tracker_file (Stored processed_files) w).

(** [extract_text_from_pdf(file_stream)] *)
Definition extract_text_from_pdf (E : Env) (data : list byte) : res (string * Z) :=
  pages <- PdfReader E data ;;
  let text :=
    foldl (fun text page_text =>
             match page_text with
             | EmptyString => text
             | _ => String.append text (String.append page_text " ")
             end)
          EmptyString pages in
  Ok (Py.strip text, Z.of_nat (length pages)).

(** [split_text_into_chunks(text, chunk_size=CHUNK_SIZE)] *)
Definition split_text_into_chunks (text : string) (chunk_size : Z)
  : res (list string) :=
  match text with
  | EmptyString => Ok []
  | _ =>
      idx <- Py.range 0 (len text) chunk_size ;;
      Ok (map (fun i => Py.slice text i (i + chunk_size)) idx)
  end.

(** [minio_client.get_object(BUCKET_NAME, file_name).read()] *)
Definition get_object (file_name : string) : M (list byte) :=
  fun w =>
    match bucket w with
    | Some objects =>
        match objects !! file_name with
        | Some data => (Ok data, w)
        | None => (Raise S3Error, w)
        end
    | None => (Raise S3Error, w)
    end.

(** The test of line 144: incremental mode, a recorded entry, the same
    hash. *)
Definition unchanged (E : Env) (processed_files : gmap string Entry)
    (file_name file_hash : string) : bool :=
  negb (FORCE_REINDEX E)
  && match processed_files !! file_name with
     | Some entry => String.eqb (hash entry) file_hash
     | None => false
     end.

(** [int(hashlib.md5(f"{file_name}-{i}".encode()).hexdigest()[:16], 16)] *)
Definition chunk_id (E : Env) (file_name : string) (i : Z) : res Z :=
  let key := String.append file_name (String.append "-" (Py.str_of_int i)) in
  Py.int16 (Py.slice (Py.hex (md5 E (Py.encode key))) 0 16).

Definition pdf_metadata (file_name : string) (page_count : Z) : json :=
  JObj (<["file_name" := JStr file_name]>
       (<["mime_type" := JStr "application/pdf"]>
       (<["page_count" := JInt page_count]>
       (<["source" := JStr (String.append "minio://"
                             (String.append BUCKET_NAME
                               (String.append "/" file_name)))]> ∅)))).

Definition chunk_payload (chunk : string) (metadata : json) (i total : Z)
    (indexed_at : Q) : gmap string json :=
  <["text" := JStr chunk]>
  (<["metadata" := metadata]>
  (<["chunk_index" := JInt i]>
  (<["total_chunks" := JInt total]>
  (<["indexed_at" := JFloat indexed_at]> ∅)))).

(** The body of the loop over [enumerate(text_chunks)]; [points] is the
    batch being filled. *)
Definition index_chunk (E : Env) (file_name : string) (metadata : json)
    (total : Z) (ic : Z * string) (points : list PointStruct)
  : M (list PointStruct) :=
  let '(i, chunk) := ic in
  let embedding := embed E chunk in
  id <~ lift (chunk_id E file_name i) ;;
  now <~ time_time E ;;
  let payload := chunk_payload chunk metadata i total now in
  let points :=
    points ++ [{| point_id := id; vector := embedding; point_payload := payload |}] in
  if 100 <=? Z.of_nat (length points)
  then (_ <~ qdrant_upsert E points ;; ret [])
  else ret points.

(** Lines 170-203: the loop over the chunks, then the upload of what is
    left in the batch. *)
Definition upload_chunks (E : Env) (file_name : string) (metadata : json)
    (text_chunks : list string) : M unit :=
  points <~ for_each
              (index_chunk E file_name metadata (Z.of_nat (length text_chunks)))
              (enumerate text_chunks) [] ;;
  match points with
  | [] => ret tt
  | _ => qdrant_upsert E points
  end.

(** The [try] block of [index_document(file_name)]. *)
Definition index_document_try (E : Env) (file_name : string) : M Outcome :=
  file_data <~ get_object file_name ;;
  let file_hash := get_file_hash E file_data in
  processed_files <~ load_processed_files ;;
  if unchanged E processed_files file_name file_hash then ret SkippedUnchanged
  else if Py.endswith (Py.lower file_name) ".pdf" then
    tp <~ lift (extract_text_from_pdf E file_data) ;;
    let '(text, page_count) := tp in
    let metadata := pdf_metadata file_name page_count in
    text_chunks <~ lift (split_text_into_chunks text CHUNK_SIZE) ;;
    match text_chunks with
    | [] => ret SkippedEmpty
    | _ =>
        _ <~ upload_chunks E file_name metadata text_chunks ;;
        now <~ time_time E ;;
        _ <~ save_processed_files
               (<[file_name := {| hash := file_hash; last_indexed := now |}]>
                  processed_files) ;;
        ret Indexed
    end
  else ret SkippedUnsupported.

(** [index_document(file_name)]: whatever the [try] block raises is
    printed and the function returns. *)
Definition index_document (E : Env) (file_name : string) (w : World)
  : Outcome * World :=
  match index_document_try E file_name w with
  | (Ok outcome, w') => (outcome, w')
  | (Raise e, w') => (Failed e, w')
  end.

(** [reset_collection()] *)
Definition reset_collection (w : World) : World := set_collection (Some ∅) w.

(** [ensure_collection_exists()] *)
Definition ensure_collection_exists (w : World) : World :=
  match collection w with
  | Some _ => w
  | None => set_collection (Some ∅) w
  end.

(** The loop [for obj in objects: index_document(obj.object_name)]. *)
Definition index_documents (E : Env) (objects : list string) (w : World) : World :=
  foldl (fun w file_name => snd (index_document E file_name w)) w objects.

(** [index_all_documents()] *)
Definition index_all_documents (E : Env) (w : World) : World :=
  match bucket w with
  | None => w
  | Some objects =>
      let w1 := if FORCE_REINDEX E then reset_collection w
                else ensure_collection_exists w in
      index_documents E (map fst (map_to_list objects)) w1
  end.

End Indexer.

(** ** The retrieval service, [qdrant_retriever.py] *)

Module Retriever.

Record QueryRequest : Type := {
  query : string;
  limit : option Z;
  threshold : option Q;
}.

Record DocumentChunk : Type := {
  text : string;
  file_name : string;
  score : Q;
  page_count : option Z;
  chunk_index : option Z;
  total_chunks : option Z;
}.

Record QueryResponse : Type := {
  documents : list DocumentChunk;
  response_query : string;
  took_ms : Q;
}.

(** [HTTPException(status_code, detail)]; the detail is a fixed prefix
    followed by the text of the exception. *)
Record HTTPException : Type := {
  status_code : Z;
  detail : string;
  cause : exn;
}.

Section WithEnv.

Context (E : Env).

(** A field declared [str]. *)
Definition validate_str (v : json) : res string :=
  match v with
  | JStr s => Ok s
  | JNull => Raise ValidationError
  | _ => match lax_str E v with
         | Some s => Ok s
         | None => Raise ValidationError
         end
  end.

(** A field declared [Optional[int] = None]. *)
Definition validate_optional_int (v : json) : res (option Z) :=
  match v with
  | JNull => Ok None
  | JInt n => Ok (Some n)
  | _ => match lax_int E v with
         | Some n => Ok (Some n)
         | None => Raise ValidationError
         end
  end.

(** The body of the inner [try]: the keyword arguments are evaluated from
    left to right, then [DocumentChunk] validates them. *)
Definition make_document (hit : ScoredPoint) : res DocumentChunk :=
  payload <- match hit_payload hit with
             | Some payload => Ok payload
             | None => Raise AttributeError
             end ;;
  let metadata := default (JObj ∅) (payload !! "metadata") in
  a_text <- match payload !! "text" with
            | Some v => Ok v
            | None => Raise (KeyError "text")
            end ;;
  a_file_name <- Py.get_or metadata "file_name" (JStr "Unknown") ;;
  let a_score := hit_score hit in
  a_page_count <- Py.get_or metadata "page_count" JNull ;;
  let a_chunk_index := default JNull (payload !! "chunk_index") in
  let a_total_chunks := default JNull (payload !! "total_chunks") in
  v_text <- validate_str a_text ;;
  v_file_name <- validate_str a_file_name ;;
  v_page_count <- validate_optional_int a_page_count ;;
  v_chunk_index <- validate_optional_int a_chunk_index ;;
  v_total_chunks <- validate_optional_int a_total_chunks ;;
  Ok {| text := v_text; file_name := v_file_name; score := a_score;
        page_count := v_page_count; chunk_index := v_chunk_index;
        total_chunks := v_total_chunks |}.

(** One turn of [for hit in search_results]: a [KeyError] is logged as a
    warning and the hit is left out, any other exception leaves the loop. *)
Definition add_hit (hit : ScoredPoint) (documents : list DocumentChunk)
  : M (list DocumentChunk) :=
  match make_document hit with
  | Ok document => ret (documents ++ [document])
  | Raise (KeyError k) => _ <~ log (LogWarning (KeyError k)) ;; ret documents
  | Raise e => raise e
  end.

(** Lines 139-155: the loop over the hits. *)
Definition assemble_documents (search_results : list ScoredPoint)
  : M (list DocumentChunk) :=
  for_each add_hit search_results [].

(** The outer [try] block of [retrieve_docs]. *)
Definition retrieve_docs_try (request : QueryRequest) (start_time : Q)
  : M QueryResponse :=
  let query_embedding := embed E (query request) in
  search_results <~ (fun w =>
     (qdrant_search E (collection w) query_embedding
        (limit request) (threshold request), w)) ;;
  documents <~ assemble_documents search_results ;;
  now <~ time_time E ;;
  let took_ms := Py.float_mul (Py.float_sub now start_time) 1000%Q in
  ret {| documents := documents; response_query := query request;
         took_ms := took_ms |}.

(** [retrieve_docs(request)] *)
Definition retrieve_docs (request : QueryRequest) (w : World)
  : (HTTPException + QueryResponse) * World :=
  let '(start_time, w0) := tick E w in
  match retrieve_docs_try request start_time w0 with
  | (Ok response, w') => (inr response, w')
  | (Raise UnexpectedResponse, w') =>
      let w'' := set_logged (logged w' ++ [LogError UnexpectedResponse]) w' in
      (inl {| status_code := 500; detail := "Qdrant search error: ";
              cause := UnexpectedResponse |}, w'')
  | (Raise e, w') =>
      let w'' := set_logged (logged w' ++ [LogError e]) w' in
      (inl {| status_code := 500; detail := "Internal server error: ";
              cause := e |}, w'')
  end.

End WithEnv.

End Retriever.

(** ** Notions the statements are written with *)

Module Spec.

(** ceil(a/b) for b >= 1. *)
Definition ceil_div (a b : Z) : Z := (a + b - 1) / b.

(** The tracker records hash [h] for file [f]. *)
Definition recorded (w : World) (f h : string) : Prop :=
  exists processed entry,
    tracker_file w = Stored processed
    /\ processed !! f = Some entry /\ hash entry = h.

(** The chunk index a record carries in its payload. *)
Definition chunk_index_of (p : PointStruct) : option Z :=
  match point_payload p !! "chunk_index" with
  | Some (JInt i) => Some i
  | _ => None
  end.


(** Qdrant turns down the n-th upsert request: the collection does not
    exist or the service rejects the request. *)
Definition rejects (E : Env) (c : option Collection) (n : nat) : Prop :=
  c = None \/ upsert_accepted E n = false.

(** [delivery E n c batches ok c']: the batches are sent in order as the
    requests number n, n+1, ... to a collection [c]; all of them are
    accepted except, when [ok] is false, the last one, after which
    nothing is sent; [c'] is the collection in the end. *)
Inductive delivery (E : Env)
  : nat -> option Collection -> list (list PointStruct) -> bool
    -> option Collection -> Prop :=
  | delivery_done n c : delivery E n c [] true c
  | delivery_accepted n c batch batches ok c' :
      upsert_accepted E n = true ->
      delivery E (S n) (Some (store_points batch c)) batches ok c' ->
      delivery E n (Some c) (batch :: batches) ok c'
  | delivery_rejected n c batch :
      rejects E c n ->
      delivery E n c [batch] false c.

(** What [index_document] leaves behind besides the clock: the requests it
    sent and how they were received. *)
Definition sends (E : Env) (w w' : World) (batches : list (list PointStruct))
    (ok : bool) : Prop :=
  upserts w' = upserts w ++ batches
  /\ bucket w' = bucket w
  /\ tracker_file w' = tracker_file w
  /\ logged w' = logged w
  /\ delivery E (length (upserts w)) (collection w) batches ok (collection w').

(** The record [p] was made for the chunk [i] of the file [f]: it carries
    the index and its identifier is the one derived from the pair. *)
Definition made_for (E : Env) (f : string) (i : Z) (p : PointStruct) : Prop :=
  chunk_index_of p = Some i /\ Indexer.chunk_id E f i = Ok (point_id p).

(** The number a byte string spells, most significant byte first. *)
Definition big_endian (bs : list byte) : Z :=
  foldl (fun acc b => 256 * acc + Z.of_N (Byte.to_N b)) 0 bs.

(** The string hashed for the chunk [i] of the file [f]. *)
Definition chunk_key (f : string) (i : Z) : string :=
  String.append f (String.append "-" (Py.str_of_int i)).

(** The upsert requests [index_document] sends for [f] from the world [w]. *)
Definition requests_of (E : Env) (f : string) (w : World)
  : list (list PointStruct) :=
  drop (length (upserts w)) (upserts (Indexer.index_document E f w).2).

(** A computation that neither reads nor writes the tracker file. *)
Definition tracker_blind {A} (m : M A) : Prop :=
  forall t w, m (set_tracker_file t w) = ((m w).1, set_tracker_file t (m w).2).





(** The document a hit gives, if it gives one. *)
Definition document_of (E : Env) (hit : ScoredPoint)
  : option Retriever.DocumentChunk :=
  match Retriever.make_document E hit with
  | Ok document => Some document
  | Raise _ => None
  end.

(** The warning a hit leaves in the log, if it leaves one. *)
Definition warning_of (E : Env) (hit : ScoredPoint) : option LogRecord :=
  match Retriever.make_document E hit with
  | Raise (KeyError k) => Some (LogWarning (KeyError k))
  | _ => None
  end.

(** A hit that gives a document or lacks a key. *)
Definition benign (E : Env) (hit : ScoredPoint) : Prop :=
  match Retriever.make_document E hit with
  | Ok _ => True
  | Raise (KeyError _) => True
  | Raise _ => False
  end.

(** The scores go down along the list. *)
Definition descending {A} (score : A -> Q) (l : list A) : Prop :=
  StronglySorted (fun a b => (score b <= score a)%Q) l.

End Spec.

Import Spec.

(** ** Test doubles: a small environment and small worlds to run the code on *)

Module Sample.

(** A stand-in for MD5: sixteen bytes mixed from the data. *)
Definition digest (data : list byte) : list byte :=
  map (fun j : nat =>
         byte_of_ascii (ascii_of_N
           (foldl (fun acc b => (acc * 31 + Byte.to_N b + 7) mod 256)%N
                  (N.of_nat j * 17 mod 256)%N data)))
      (seq 0 16).

(** A stand-in for the embedding model: two coordinates, the second read
    off the length of the text. *)
Definition embedding (s : string) : list Q :=
  [1%Q; (Z.of_nat (String.length s) # 1000)%Q].

(** A stand-in for PyPDF2: the bytes are the text, a form feed ends a
    page, and an empty file is not a PDF. *)
Fixpoint pages_from (page : string) (data : list byte) : list string :=
  match data with
  | [] => [page]
  | b :: data' =>
      if (Byte.to_N b =? 12)%N then page :: pages_from EmptyString data'
      else pages_from (String.append page (String (ascii_of_byte b) EmptyString)) data'
  end.

Definition reader (data : list byte) : res (list string) :=
  match data with
  | [] => Raise PdfReadError
  | _ => Ok (pages_from EmptyString data)
  end.

Definition dot (u v : list Q) : Q :=
  foldr Qplus 0%Q (zip_with Qmult u v).

Fixpoint insert_hit (h : ScoredPoint) (hits : list ScoredPoint) : list ScoredPoint :=
  match hits with
  | [] => [h]
  | h' :: hits' =>
      if Qle_bool (hit_score h') (hit_score h) then h :: hits
      else h' :: insert_hit h hits'
  end.

(** A stand-in for the search of Qdrant: score every record against the
    query (a dot product), keep the scores that reach the threshold, order
    them from the best down and cut at the limit. A missing collection is
    an error. *)
Definition search (c : option Collection) (v : list Q) (limit : option Z)
    (threshold : option Q) : res (list ScoredPoint) :=
  match c with
  | None => Raise UnexpectedResponse
  | Some points =>
      let hits :=
        map (fun kv : Z * (list Q * gmap string json) =>
               {| hit_id := kv.1; hit_score := dot v kv.2.1;
                  hit_payload := Some kv.2.2 |})
            (map_to_list points) in
      let kept :=
        List.filter (fun h => match threshold with
                              | Some t => Qle_bool t (hit_score h)
                              | None => true
                              end) hits in
      let ordered := foldr insert_hit [] kept in
      Ok (take (Z.to_nat (default 10 limit)) ordered)
  end.

(** The environment: [force] is [FORCE_REINDEX], [rejected] lists the
    upsert requests Qdrant turns down. *)
Definition env (force : bool) (rejected : list nat) : Env :=
  {| FORCE_REINDEX := force;
     md5 := digest;
     embed := embedding;
     PdfReader := reader;
     wall_clock := fun n => inject_Z (1700000000 + Z.of_nat n);
     upsert_accepted := fun n => negb (bool_decide (n ∈ rejected));
     qdrant_search := search;
     lax_str := fun _ => None;
     lax_int := fun _ => None |}.

Definition bytes_of (s : string) : list byte := list_byte_of_string s.

(** A text of [n] characters. *)
Definition text_of_length (n : nat) : string :=
  string_of_list_ascii (replicate n "x"%char).

Definition world (objects : gmap string (list byte)) (f : StoreFile)
    (c : option Collection) : World :=
  {| bucket := Some objects; tracker_file := f; collection := c;
     clock := 0; upserts := []; logged := [] |}.

(** A bucket with a PDF of 1050 characters, a PDF without text and a file
    that is not a PDF. *)
Definition objects : gmap string (list byte) :=
  <["report.pdf" := bytes_of (text_of_length 1050)]>
  (<["blank.pdf" := bytes_of "   "]>
  (<["notes.txt" := bytes_of "hello"]> ∅)).

(** Before the first run: no tracker file, no collection. *)
Definition fresh_world : World := world objects Missing None.

(** The tracker file is there but does not parse. *)
Definition corrupt_world : World := world objects Corrupt (Some ∅).

(** After a first run in incremental mode. *)
Definition indexed_world : World :=
  Indexer.index_all_documents (env false []) fresh_world.

(** A bucket where every object is a PDF with text, and the world after a
    first run over it. *)
Definition library : gmap string (list byte) :=
  <["letter.pdf" := bytes_of "dear reader"]>
  (<["memo.pdf" := bytes_of "to whom it may concern"]> ∅).

Definition library_indexed : World :=
  Indexer.index_all_documents (env false []) (world library Missing None).

(** What the tracker file holds, the empty mapping when it cannot be
    read. *)
Definition tracked (w : World) : gmap string Entry :=
  match tracker_file w with
  | Stored processed => processed
  | _ => ∅
  end.

(** The tracker file parses and records hash [h] for file [f]. *)
Definition recorded_as (w : World) (f h : string) : bool :=
  match tracker_file w with
  | Stored processed =>
      match processed !! f with
      | Some entry => String.eqb (hash entry) h
      | None => false
      end
  | _ => false
  end.

(** Payloads as the indexer writes them, and payloads that lack a part. *)
Definition full_payload (text file_name : string) (i total : Z)
  : gmap string json :=
  Indexer.chunk_payload text (Indexer.pdf_metadata file_name 1) i total
    (inject_Z 1700000000).

Definition text_only (text : string) : gmap string json :=
  {["text" := JStr text]}.

Definition without_text (file_name : string) : gmap string json :=
  delete "text" (full_payload EmptyString file_name 0 1).

Definition metadata_not_a_mapping (text : string) : gmap string json :=
  <["metadata" := JStr "report.pdf"]> (text_only text).

(** A collection whose records score 0.81, 0.4, 0.9 and 0.75 against any
    query of the stand-in model; the third record has no text. *)
Definition answers : Collection :=
  <[1 := ([(81 # 100)%Q; 0%Q], full_payload "revenue grew" "report.pdf" 0 2)]>
  (<[2 := ([(4 # 10)%Q; 0%Q], full_payload "costs fell" "report.pdf" 1 2)]>
  (<[3 := ([(9 # 10)%Q; 0%Q], without_text "memo.pdf")]>
  (<[4 := ([(75 # 100)%Q; 0%Q], text_only "revenue outlook")]> ∅))).

(** A collection with a well-formed record and one whose [metadata] is a
    string. *)
Definition broken : Collection :=
  <[1 := ([(81 # 100)%Q; 0%Q], full_payload "revenue grew" "report.pdf" 0 2)]>
  (<[5 := ([(95 # 100)%Q; 0%Q], metadata_not_a_mapping "revenue fell")]> ∅).

Definition serving (c : Collection) : World :=
  {| bucket := None; tracker_file := Missing; collection := Some c;
     clock := 0; upserts := []; logged := [] |}.

Definition request : Retriever.QueryRequest :=
  {| Retriever.query := "revenue growth"; Retriever.limit := Some 3;
     Retriever.threshold := Some (7 # 10)%Q |}.

(** The list a computation gives, empty when it raised. *)
Definition found {A} (r : res (list A)) : list A :=
  match r with
  | Ok l => l
  | Raise _ => []
  end.

(** The hits the stand-in search gives for [request] in a collection. *)
Definition hits_in (c : Collection) : list ScoredPoint :=
  found (search (Some c) (embedding (Retriever.query request))
           (Retriever.limit request) (Retriever.threshold request)).

(** The response of a request, an empty one when the request failed. *)
Definition response_of (o : Retriever.HTTPException + Retriever.QueryResponse)
  : Retriever.QueryResponse :=
  match o with
  | inr response => response
  | inl _ => {| Retriever.documents := []; Retriever.response_query := EmptyString;
                Retriever.took_ms := 0%Q |}
  end.

(** The hit the stand-in search makes of a record. *)
Definition hit (id : Z) (v : list Q) (payload : gmap string json) : ScoredPoint :=
  {| hit_id := id;
     hit_score := dot (embedding (Retriever.query request)) v;
     hit_payload := Some payload |}.

(** The search contract, as a test: at most [n] hits, every score at
    least [thr], the scores going down. *)
Fixpoint goes_down (scores : list Q) : bool :=
  match scores with
  | [] => true
  | a :: rest => forallb (fun b => Qle_bool b a) rest && goes_down rest
  end.

Definition within (n : Z) (thr : Q) (scores : list Q) : bool :=
  (Z.of_nat (length scores) <=? n)
  && forallb (fun a => Qle_bool thr a) scores
  && goes_down scores.

(** The value of a computation, [0] when it raised. *)
Definition id_of (r : res Z) : Z :=
  match r with
  | Ok id => id
  | Raise _ => 0
  end.

(** The bucket [library] with one more object, a file named as a PDF that
    the reader cannot open. *)
Definition damaged : gmap string (list byte) :=
  <["scan.pdf" := []]> library.

(** The collection [broken] with one more record, the best of the three,
    that has no text. *)
Definition mixed : Collection :=
  <[3 := ([(97 # 100)%Q; 0%Q], without_text "memo.pdf")]> broken.

(** A PDF of two pages with white space around the text. *)
Definition padded : list byte :=
  bytes_of "  dear reader " ++ [x0c] ++ bytes_of " yours  ".

(** An environment with other readings of the clock: the n-th call of
    [time.time()] gives the n-th reading of the list. *)
Definition with_clock (readings : list Q) (E : Env) : Env :=
  {| FORCE_REINDEX := FORCE_REINDEX E;
     md5 := md5 E;
     embed := embed E;
     PdfReader := PdfReader E;
     wall_clock := fun n => nth n readings 0%Q;
     upsert_accepted := upsert_accepted E;
     qdrant_search := qdrant_search E;
     lax_str := lax_str E;
     lax_int := lax_int E |}.

(** The doubles that Python writes 0.1 and 0.4. *)
Definition tenth : Q := (3602879701896397 # 36028797018963968)%Q.

Definition four_tenths : Q := (3602879701896397 # 9007199254740992)%Q.




End Sample.

(** ** The paths of [index_document] *)

Module Trace.

(** The object [f] is in the bucket and holds [data]. *)
Definition fetched (w : World) (f : string) (data : list byte) : Prop :=
  exists objects, bucket w = Some objects /\ objects !! f = Some data.

(** The tracker file reads as the mapping [processed]. *)
Definition loaded (w : World) (processed : gmap string Entry) : Prop :=
  (tracker_file w = Missing /\ processed = ∅)
  \/ tracker_file w = Stored processed.

(** The entries of the tracker file, none when it is missing or does not
    parse. *)
Definition entries (w : World) : gmap string Entry :=
  match tracker_file w with
  | Stored processed => processed
  | _ => ∅
  end.

(** The identifiers of the records of the collection. *)
Definition ids (w : World) : gset Z :=
  match collection w with
  | Some c => dom c
  | None => ∅
  end.

(** The record line 192 builds for the chunk [i]. *)
Definition record (E : Env) (f : string) (page_count total : Z) (i : Z)
    (chunk : string) (id : Z) (now : Q) : PointStruct :=
  {| point_id := id;
     vector := embed E chunk;
     point_payload :=
       Indexer.chunk_payload chunk (Indexer.pdf_metadata f page_count) i total now |}.

(** The record the loop builds for a chunk, given its identifier and the
    reading of the clock. *)
Definition built (E : Env) (metadata : json) (total : Z) (id : Z)
    (chunk : string) (i : Z) (now : Q) : PointStruct :=
  {| point_id := id; vector := embed E chunk;
     point_payload := Indexer.chunk_payload chunk metadata i total now |}.

(** The records [new] are those of the first chunks of [l], numbered from
    [j], the clock having been read [c0] times before. *)
Definition expected (E : Env) (f : string) (metadata : json) (total : Z)
    (l : list string) (j c0 : nat) (new : list PointStruct) : Prop :=
  forall k p, new !! k = Some p ->
    exists chunk id,
      l !! k = Some chunk
      /\ Indexer.chunk_id E f (Z.of_nat (j + k)) = Ok id
      /\ p = built E metadata total id chunk (Z.of_nat (j + k))
               (wall_clock E (c0 + k)).

(** How a call of [index_document] on [f] from [w] went: the outcome and
    the world it left, by the line the call returned at. *)
Inductive run (E : Env) (f : string) (w : World)
  : Indexer.Outcome -> World -> Prop :=
  | run_no_object :
      (forall data, ~ fetched w f data) ->
      run E f w (Indexer.Failed S3Error) w
  | run_unreadable data :
      fetched w f data -> tracker_file w = Corrupt ->
      run E f w (Indexer.Failed JSONDecodeError) w
  | run_unchanged data processed :
      fetched w f data -> loaded w processed ->
      Indexer.unchanged E processed f (Indexer.get_file_hash E data) = true ->
      run E f w Indexer.SkippedUnchanged w
  | run_unsupported data processed :
      fetched w f data -> loaded w processed ->
      Indexer.unchanged E processed f (Indexer.get_file_hash E data) = false ->
      Py.endswith (Py.lower f) ".pdf" = false ->
      run E f w Indexer.SkippedUnsupported w
  | run_no_text data processed e :
      fetched w f data -> loaded w processed ->
      Indexer.unchanged E processed f (Indexer.get_file_hash E data) = false ->
      Py.endswith (Py.lower f) ".pdf" = true ->
      Indexer.extract_text_from_pdf E data = Raise e ->
      run E f w (Indexer.Failed e) w
  | run_no_chunks data processed text page_count e :
      fetched w f data -> loaded w processed ->
      Indexer.unchanged E processed f (Indexer.get_file_hash E data) = false ->
      Py.endswith (Py.lower f) ".pdf" = true ->
      Indexer.extract_text_from_pdf E data = Ok (text, page_count) ->
      Indexer.split_text_into_chunks text Indexer.CHUNK_SIZE = Raise e ->
      run E f w (Indexer.Failed e) w
  | run_empty data processed text page_count :
      fetched w f data -> loaded w processed ->
      Indexer.unchanged E processed f (Indexer.get_file_hash E data) = false ->
      Py.endswith (Py.lower f) ".pdf" = true ->
      Indexer.extract_text_from_pdf E data = Ok (text, page_count) ->
      Indexer.split_text_into_chunks text Indexer.CHUNK_SIZE = Ok [] ->
      run E f w Indexer.SkippedEmpty w
  | run_upload_failed data processed text page_count chunks e w1 :
      fetched w f data -> loaded w processed ->
      Indexer.unchanged E processed f (Indexer.get_file_hash E data) = false ->
      Py.endswith (Py.lower f) ".pdf" = true ->
      Indexer.extract_text_from_pdf E data = Ok (text, page_count) ->
      Indexer.split_text_into_chunks text Indexer.CHUNK_SIZE = Ok chunks ->
      chunks <> [] ->
      Indexer.upload_chunks E f (Indexer.pdf_metadata f page_count) chunks w
      = (Raise e, w1) ->
      run E f w (Indexer.Failed e) w1
  | run_indexed data processed text page_count chunks w1 :
      fetched w f data -> loaded w processed ->
      Indexer.unchanged E processed f (Indexer.get_file_hash E data) = false ->
      Py.endswith (Py.lower f) ".pdf" = true ->
      Indexer.extract_text_from_pdf E data = Ok (text, page_count) ->
      Indexer.split_text_into_chunks text Indexer.CHUNK_SIZE = Ok chunks ->
      chunks <> [] ->
      Indexer.upload_chunks E f (Indexer.pdf_metadata f page_count) chunks w
      = (Ok tt, w1) ->
      run E f w Indexer.Indexed
        (set_tracker_file
           (Stored (<[f := {| hash := Indexer.get_file_hash E data;
                              last_indexed := (tick E w1).1 |}]> processed))
           (tick E w1).2).

(** The error a request ends with when [e] comes out of the outer [try]
    of [retrieve_docs]. *)
Definition server_error (e : exn) : Retriever.HTTPException :=
  {| Retriever.status_code := 500;
     Retriever.detail := match e with
                         | UnexpectedResponse => "Qdrant search error: "
                         | _ => "Internal server error: "
                         end;
     Retriever.cause := e |}.

(** A text made of white space only. *)
Definition blank (s : string) : Prop :=
  Forall (fun c => Py.isspace c = true) (list_ascii_of_string s).

(** The first and the last character of a text. *)
Definition first_char (s : string) : option ascii :=
  head (list_ascii_of_string s).

Definition last_char (s : string) : option ascii :=
  last (list_ascii_of_string s).

(** Reading one character back from its UTF-8 bytes. *)
Definition decode_char (bs : list byte) : option (ascii * list byte) :=
  match bs with
  | [] => None
  | b :: rest =>
      if (Byte.to_N b <? 128)%N then Some (ascii_of_byte b, rest)
      else match rest with
           | [] => None
           | b' :: rest' =>
               Some (ascii_of_N ((Byte.to_N b - 192) * 64 + (Byte.to_N b' - 128)),
                     rest')
           end
  end.

End Trace.

Import Trace.

(** Closed equations are settled by evaluation. *)
Ltac by_vm :=
  match goal with
  | |- ?a = ?b => vm_cast_no_check (eq_refl b)
  end.

(** ** Facts about strings as character lists *)

Section StringFacts.

Lemma chars_append (s t : string) :
  list_ascii_of_string (String.append s t) = list_ascii_of_string s ++ list_ascii_of_string t.
Proof. induction s as [|c s IH]; simpl; [done | by rewrite IH]. Qed.

Lemma chars_length (s : string) :
  length (list_ascii_of_string s) = String.length s.
Proof. induction s as [|c s IH]; simpl; [done | by rewrite IH]. Qed.

Lemma chars_inj (s t : string) :
  list_ascii_of_string s = list_ascii_of_string t -> s = t.
Proof.
  intros H. rewrite <- (string_of_list_ascii_of_string s).
  rewrite <- (string_of_list_ascii_of_string t). by rewrite H.
Qed.

Lemma chars_get (s : string) (k : nat) :
  String.get k s = list_ascii_of_string s !! k.
Proof.
  revert k. induction s as [|c s IH]; intros [|k]; simpl; auto.
Qed.

Lemma chars_substring (s : string) (n m : nat) :
  list_ascii_of_string (substring n m s) = take m (drop n (list_ascii_of_string s)).
Proof.
  revert n m. induction s as [|c s IH]; intros [|n] [|m]; simpl; try done;
    rewrite IH; by rewrite ?drop_0.
Qed.

Lemma chars_join (ss : list string) :
  list_ascii_of_string (Py.join ss) = concat (map list_ascii_of_string ss).
Proof.
  induction ss as [|s ss IH]; simpl; [done |].
  by rewrite chars_append, IH.
Qed.

End StringFacts.

(** ** The chunker *)

Section Chunker.

Lemma concat_take_drop {A} (l : list A) (c n : nat) :
  concat (map (fun k => take c (drop (k * c) l)) (seq 0 n)) = take (n * c) l.
Proof.
  induction n as [|n IH]; [done |].
  rewrite seq_S, map_app, concat_app, IH. simpl. rewrite app_nil_r.
  rewrite <- (take_drop (n * c) (take (c + n * c) l)) at 1.
  rewrite take_take, skipn_firstn_comm.
  f_equal; f_equal; lia.
Qed.

(** The chunk taken at an offset inside the text is the window of
    [chunk_size] characters that starts there. *)
Lemma slice_window (T : string) (C : Z) (k : nat) :
  1 <= C -> Z.of_nat k * C < len T ->
  Py.slice T (0 + Z.of_nat k * C) (0 + Z.of_nat k * C + C)
  = substring (k * Z.to_nat C) (Z.to_nat C) T.
Proof.
  intros HC Hk. unfold Py.slice, Py.slice_bound, len in *.
  set (L := String.length T) in *.
  assert (0 <= Z.of_nat k * C) by nia.
  destruct (Z.ltb_spec (0 + Z.of_nat k * C) 0); [lia |].
  destruct (Z.ltb_spec (0 + Z.of_nat k * C + C) 0); [lia |].
  apply chars_inj. rewrite !chars_substring.
  replace (Z.to_nat (Z.min (0 + Z.of_nat k * C) (Z.of_nat L)))
    with (k * Z.to_nat C)%nat by nia.
  destruct (Z.le_gt_cases (0 + Z.of_nat k * C + C) (Z.of_nat L)).
  - f_equal. nia.
  - rewrite !take_ge; [done | |]; rewrite length_drop, chars_length; fold L; nia.
Qed.

Lemma split_nonempty (T : string) (C : Z) :
  1 <= C -> T <> EmptyString ->
  Indexer.split_text_into_chunks T C
  = Ok (map (fun k : nat => substring (k * Z.to_nat C) (Z.to_nat C) T)
            (seq 0 (Z.to_nat (ceil_div (len T) C)))).
Proof.
  intros HC HT. unfold Indexer.split_text_into_chunks.
  destruct T as [|a T]; [done |]. set (S := String a T) in *.
  assert (1 <= len S) by (unfold len; simpl; lia).
  unfold Py.range, Py.range_len.
  destruct (Z.eqb_spec C 0); [lia |].
  destruct (Z.ltb_spec 0 C); [| lia].
  destruct (Z.ltb_spec 0 (len S)); [| lia].
  simpl. f_equal. rewrite map_map.
  replace (ceil_div (len S) C) with ((len S - 0 - 1) / C + 1).
  2:{ unfold ceil_div. rewrite <- Z.div_add by lia. f_equal. lia. }
  apply map_ext_in. intros k Hk. apply in_seq in Hk.
  apply slice_window; [done |].
  assert (0 <= (len S - 0 - 1) / C) by (apply Z.div_pos; lia).
  assert (C * ((len S - 0 - 1) / C) <= len S - 0 - 1)
    by (apply Z.mul_div_le; lia).
  nia.
Qed.

End Chunker.

Section ChunkerSpec.

(** C2. For a chunk size C >= 1 and a text T of length L the chunker
    returns ceil(L/C) chunks; chunk i holds the characters of T at the
    offsets [i*C, (i+1)*C) (its length is min(C, L - i*C), its k-th
    character is the (i*C+k)-th of T); every chunk but the last has length
    C; joined in order the chunks give T back; and the empty text gives
    the empty sequence, not an error. *)
Theorem split_text_into_chunks_spec (T : string) (C : Z) :
  1 <= C ->
  exists chunks : list string,
    Indexer.split_text_into_chunks T C = Ok chunks
    /\ Z.of_nat (length chunks) = ceil_div (len T) C
    /\ (forall (i : nat) (c : string), chunks !! i = Some c ->
          len c = Z.min C (len T - Z.of_nat i * C)
          /\ forall k : nat, (k < String.length c)%nat ->
               String.get k c = String.get (i * Z.to_nat C + k) T)
    /\ (forall (i : nat) (c : string), chunks !! i = Some c ->
          (S i < length chunks)%nat -> len c = C)
    /\ Py.join chunks = T
    /\ (T = EmptyString -> chunks = []).
Proof.
  intros HC. destruct (decide (T = EmptyString)) as [-> | HT].
  { exists []. split_and!; try done.
    unfold ceil_div, len. simpl. symmetry. apply Z.div_small. lia. }
  eexists. split; [by apply split_nonempty |].
  set (n := Z.to_nat (ceil_div (len T) C)).
  set (c := Z.to_nat C).
  assert (HL : 1 <= len T).
  { unfold len. destruct T; [done | simpl; lia]. }
  assert (Hn : ceil_div (len T) C = (len T - 1) / C + 1).
  { unfold ceil_div. rewrite <- Z.div_add by lia. f_equal. lia. }
  assert (Hq : 0 <= (len T - 1) / C) by (apply Z.div_pos; lia).
  assert (Hlo : C * ((len T - 1) / C) <= len T - 1)
    by (apply Z.mul_div_le; lia).
  assert (Hhi : len T - 1 < C * ((len T - 1) / C + 1)).
  { pose proof (Z.mod_pos_bound (len T - 1) C ltac:(lia)).
    pose proof (Z.div_mod (len T - 1) C ltac:(lia)). lia. }
  assert (Hlen : forall (i : nat) (s : string),
             map (fun k : nat => substring (k * c) c T) (seq 0 n) !! i = Some s ->
             (i < n)%nat /\ s = substring (i * c) c T).
  { intros i s Hi. rewrite list_lookup_fmap in Hi.
    destruct (seq 0 n !! i) as [k|] eqn:Hk; [| done].
    apply lookup_seq in Hk as [-> ?]. simpl in Hi. by inversion Hi. }
  assert (Hsz : forall i : nat, (i < n)%nat ->
             len (substring (i * c) c T) = Z.min C (len T - Z.of_nat i * C)).
  { intros i Hi. unfold len.
    rewrite <- !chars_length, chars_substring, length_take, length_drop.
    rewrite chars_length. fold (len T). unfold len in *. nia. }
  split_and!.
  - rewrite length_map, length_seq. unfold n. rewrite Z2Nat.id; lia.
  - intros i s H. split; [apply Hlen in H as [Hi ->]; by apply Hsz |].
    intros k Hk. apply Hlen in H as [Hi ->].
    rewrite !chars_get, chars_substring.
    rewrite <- chars_length, chars_substring, length_take in Hk.
    rewrite lookup_take_lt by lia. by rewrite lookup_drop.
  - intros i s Hi Hlt. rewrite length_map, length_seq in Hlt.
    apply Hlen in Hi as [Hi ->]. rewrite Hsz by done. unfold n in *. nia.
  - apply chars_inj. rewrite chars_join, map_map.
    erewrite map_ext; [| intros k; apply chars_substring].
    rewrite concat_take_drop. apply take_ge.
    rewrite chars_length. unfold n, c, len in *. nia.
  - done.
Qed.

End ChunkerSpec.

(** ** The skip decision and the paths that leave the world untouched *)

Section SkipDecision.

Context (E : Env).

Lemma unchanged_true (processed : gmap string Entry) (f h : string) :
  Indexer.unchanged E processed f h = true
  <-> FORCE_REINDEX E = false
      /\ exists entry, processed !! f = Some entry /\ hash entry = h.
Proof.
  unfold Indexer.unchanged. destruct (FORCE_REINDEX E); simpl.
  - split; [done | by intros [? _]].
  - destruct (processed !! f) as [entry|].
    + rewrite String.eqb_eq. split.
      * intros <-. eauto.
      * intros [_ (entry' & Heq & <-)]. by inversion Heq.
    + split; [done | by intros [_ (? & ? & _)]].
Qed.

(** What the [try] block does up to the skip test, when the object is
    there and the tracker file can be read. *)
Lemma index_document_unchanged (w : World) (f : string)
    (objects : gmap string (list byte)) (data : list byte) :
  bucket w = Some objects -> objects !! f = Some data ->
  FORCE_REINDEX E = false -> recorded w f (Indexer.get_file_hash E data) ->
  Indexer.index_document E f w = (Indexer.SkippedUnchanged, w).
Proof.
  intros Hb Hf Hforce (processed & entry & Ht & He & Hh).
  unfold Indexer.index_document, Indexer.index_document_try, mbind,
    Indexer.get_object, Indexer.load_processed_files.
  rewrite Hb, Hf, Ht.
  assert (Indexer.unchanged E processed f (Indexer.get_file_hash E data) = true)
    as -> by (apply unchanged_true; eauto).
  done.
Qed.

(** The outcome [SkippedUnchanged] comes from the skip test only. *)
Lemma index_document_skipped_unchanged (w : World) (f : string) :
  (Indexer.index_document E f w).1 = Indexer.SkippedUnchanged ->
  exists objects data,
    bucket w = Some objects /\ objects !! f = Some data
    /\ FORCE_REINDEX E = false
    /\ recorded w f (Indexer.get_file_hash E data).
Proof.
  unfold Indexer.index_document, Indexer.index_document_try, mbind,
    Indexer.get_object, Indexer.load_processed_files, lift, ret,
    Indexer.save_processed_files, time_time, tick.
  intros H.
  destruct (bucket w) as [objects|] eqn:Hb; [| done].
  destruct (objects !! f) as [data|] eqn:Hf; [| done].
  exists objects, data. split; [done |]. split; [done |].
  assert (forall processed,
            tracker_file w = Stored processed \/
            (tracker_file w = Missing /\ processed = ∅) ->
            Indexer.unchanged E processed f (Indexer.get_file_hash E data) = true ->
            FORCE_REINDEX E = false /\ recorded w f (Indexer.get_file_hash E data))
    as Hrec.
  { intros processed Ht [Hforce (entry & He & Hh)]%unchanged_true.
    split; [done |]. destruct Ht as [Ht | [_ ->]].
    - by exists processed, entry.
    - by rewrite lookup_empty in He. }
  destruct (tracker_file w) as [| | processed] eqn:Ht; simpl in H; [| done |].
  - destruct (Indexer.unchanged E ∅ f _) eqn:Hu; [apply (Hrec ∅); auto |].
    repeat (case_match; simplify_eq/=); done.
  - destruct (Indexer.unchanged E processed f _) eqn:Hu;
      [apply (Hrec processed); auto |].
    repeat (case_match; simplify_eq/=); done.
Qed.

End SkipDecision.

(** ** The upload does not look at the tracker file *)

Section TrackerBlind.

Context (E : Env).

Lemma blind_ret {A} (a : A) : tracker_blind (ret a).
Proof. done. Qed.

Lemma blind_lift {A} (r : res A) : tracker_blind (lift r).
Proof. done. Qed.

Lemma blind_bind {A B} (m : M A) (k : A -> M B) :
  tracker_blind m -> (forall a, tracker_blind (k a)) -> tracker_blind (mbind m k).
Proof.
  intros Hm Hk t w. unfold mbind. rewrite Hm.
  destruct (m w) as [[a | e] w']; [apply Hk | done].
Qed.

Lemma blind_for_each {A S} (body : A -> S -> M S) (l : list A) :
  (forall a s, tracker_blind (body a s)) ->
  forall s, tracker_blind (for_each body l s).
Proof.
  intros Hbody. induction l as [|a l IH]; intros s; [apply blind_ret |].
  apply blind_bind; [apply Hbody | apply IH].
Qed.

Lemma blind_time : tracker_blind (time_time E).
Proof. done. Qed.

Lemma blind_upsert (pts : list PointStruct) : tracker_blind (qdrant_upsert E pts).
Proof.
  intros t w. unfold qdrant_upsert. simpl.
  destruct (collection w); [destruct (upsert_accepted E _) |]; done.
Qed.

Lemma blind_upload (f : string) (metadata : json) (chunks : list string) :
  tracker_blind (Indexer.upload_chunks E f metadata chunks).
Proof.
  unfold Indexer.upload_chunks. apply blind_bind.
  - apply blind_for_each. intros [i chunk] pts. unfold Indexer.index_chunk.
    apply blind_bind; [apply blind_lift |]. intros id.
    apply blind_bind; [apply blind_time |]. intros now.
    destruct (100 <=? _); [| apply blind_ret].
    apply blind_bind; [apply blind_upsert | intros; apply blind_ret].
  - intros [|p pts]; [apply blind_ret | apply blind_upsert].
Qed.

(** A missing tracker file and one that holds the empty mapping give the
    same outcome. *)
Lemma missing_as_empty (f : string) (w : World) :
  tracker_file w = Missing ->
  (Indexer.index_document E f w).1
  = (Indexer.index_document E f (set_tracker_file (Stored ∅) w)).1.
Proof.
  intros Ht.
  unfold Indexer.index_document, Indexer.index_document_try, mbind,
    Indexer.get_object, Indexer.load_processed_files, lift, ret.
  cbn [bucket tracker_file set_tracker_file].
  destruct (bucket w) as [objects|]; [| done].
  destruct (objects !! f) as [data|]; [| done].
  cbv beta iota. cbn [bucket tracker_file set_tracker_file]. rewrite Ht.
  destruct (Indexer.unchanged E ∅ f _); [done |].
  destruct (Py.endswith _ _); [| done].
  destruct (Indexer.extract_text_from_pdf E data) as [[text page_count] | e];
    [| done].
  cbv beta iota zeta.
  destruct (Indexer.split_text_into_chunks text Indexer.CHUNK_SIZE)
    as [[|chunk chunks] | e]; [done | | done].
  cbv beta iota. rewrite blind_upload.
  destruct (Indexer.upload_chunks E f _ (chunk :: chunks) w) as [[[] | e] w1];
    done.
Qed.

End TrackerBlind.

Section Tracker.

Context (E : Env).

(** C3. The skip test is true exactly when incremental mode is on, the
    tracker holds an entry for the file name and the entry's hash is the
    content hash; and [index_document] ends as skipped-unchanged exactly
    when the object could be fetched and the test holds for the tracker
    contents and the hash of the fetched bytes. In every other case the
    document goes on to extraction. *)
Theorem skip_decision (w : World) (f : string) :
  (forall (processed : gmap string Entry) (h : string),
      Indexer.unchanged E processed f h = false
      <-> ~ (FORCE_REINDEX E = false
             /\ exists entry, processed !! f = Some entry /\ hash entry = h))
  /\ ((Indexer.index_document E f w).1 = Indexer.SkippedUnchanged
      <-> exists objects data,
            bucket w = Some objects /\ objects !! f = Some data
            /\ FORCE_REINDEX E = false
            /\ recorded w f (Indexer.get_file_hash E data)).
Proof.
  split.
  - intros processed h. rewrite <- unchanged_true.
    by destruct (Indexer.unchanged E processed f h).
  - split; [apply index_document_skipped_unchanged |].
    intros (objects & data & Hb & Hf & Hforce & Hrec).
    by erewrite index_document_unchanged.
Qed.

(** C1. In incremental mode, a document whose tracker entry holds the hash
    of its current content ends as skipped-unchanged and leaves the world
    as it was: no upsert request, no tracker write. Over a list of such
    documents the loop of the pipeline leaves the world as it was, and so
    does the whole pipeline when the collection already exists. *)
Theorem unchanged_rerun_alters_nothing (w : World)
    (objects : gmap string (list byte)) (fs : list string) :
  FORCE_REINDEX E = false ->
  bucket w = Some objects ->
  Forall (fun f => exists data, objects !! f = Some data
                     /\ recorded w f (Indexer.get_file_hash E data)) fs ->
  Forall (fun f => Indexer.index_document E f w = (Indexer.SkippedUnchanged, w)) fs
  /\ Indexer.index_documents E fs w = w
  /\ (is_Some (collection w) -> fs = map fst (map_to_list objects) ->
      Indexer.index_all_documents E w = w).
Proof.
  intros Hforce Hb Hfs.
  assert (Hall : Forall (fun f => Indexer.index_document E f w
                                  = (Indexer.SkippedUnchanged, w)) fs).
  { eapply Forall_impl; [exact Hfs |]. intros f (data & Hf & Hrec).
    by eapply index_document_unchanged. }
  assert (Hloop : Indexer.index_documents E fs w = w).
  { unfold Indexer.index_documents. clear Hfs.
    induction Hall as [|f fs Hf _ IH]; [done |]. simpl. by rewrite Hf. }
  split_and!; [done | done |].
  intros [c Hc] ->. unfold Indexer.index_all_documents.
  rewrite Hb, Hforce. unfold Indexer.ensure_collection_exists. by rewrite Hc.
Qed.

(** C5. A PDF that was fetched, was not skipped as unchanged and whose
    extracted text gives no chunk ends as skipped-empty and leaves the
    world as it was: nothing is upserted and the tracker is not written.
    The next run therefore finds the same world and goes through
    extraction and chunking again. *)
Theorem empty_chunks_are_skipped (w : World) (f : string)
    (objects : gmap string (list byte)) (data : list byte)
    (text : string) (page_count : Z) :
  bucket w = Some objects -> objects !! f = Some data ->
  tracker_file w <> Corrupt ->
  FORCE_REINDEX E = true \/ ~ recorded w f (Indexer.get_file_hash E data) ->
  Py.endswith (Py.lower f) ".pdf" = true ->
  Indexer.extract_text_from_pdf E data = Ok (text, page_count) ->
  Indexer.split_text_into_chunks text Indexer.CHUNK_SIZE = Ok [] ->
  Indexer.index_document E f w = (Indexer.SkippedEmpty, w)
  /\ Indexer.index_document E f (Indexer.index_document E f w).2
     = (Indexer.SkippedEmpty, w).
Proof.
  intros Hb Hf Ht Hnot Hpdf Htext Hchunks.
  assert (Indexer.index_document E f w = (Indexer.SkippedEmpty, w)) as Hrun.
  { unfold Indexer.index_document, Indexer.index_document_try, mbind,
      Indexer.get_object, Indexer.load_processed_files, lift.
    rewrite Hb, Hf.
    assert (forall processed,
              tracker_file w = Stored processed \/
              (tracker_file w = Missing /\ processed = ∅) ->
              Indexer.unchanged E processed f (Indexer.get_file_hash E data)
              = false) as Hu.
    { intros processed Hp.
      destruct (Indexer.unchanged E processed f _) eqn:Hu; [| done].
      apply unchanged_true in Hu as [Hforce (entry & He & Hh)].
      destruct Hnot as [Hnot | Hnot]; [congruence |]. exfalso.
      destruct Hp as [Hp | [_ ->]].
      - apply Hnot. by exists processed, entry.
      - by rewrite lookup_empty in He. }
    destruct (tracker_file w) as [| | processed] eqn:Htf; [| done |].
    - rewrite (Hu ∅) by auto. by rewrite Hpdf, Htext, Hchunks.
    - rewrite (Hu processed) by auto. by rewrite Hpdf, Htext, Hchunks. }
  by rewrite Hrun.
Qed.

(** C4, as the code has it. When the tracker file is missing the read
    gives the empty mapping, the document is never skipped as unchanged
    and it ends as it does with a tracker file that holds the empty
    mapping. When the file is there but does not parse the read raises;
    [index_document] catches the error: the document ends as failed, the
    world is as it was (nothing upserted, no tracker write), and the loop
    of the pipeline goes through every document the same way. *)
Theorem store_read_failure (w : World) (f : string)
    (objects : gmap string (list byte)) (data : list byte) :
  bucket w = Some objects -> objects !! f = Some data ->
  (tracker_file w = Missing ->
     Indexer.load_processed_files w = (Ok ∅, w)
     /\ (Indexer.index_document E f w).1 <> Indexer.SkippedUnchanged
     /\ (Indexer.index_document E f w).1
        = (Indexer.index_document E f (set_tracker_file (Stored ∅) w)).1)
  /\ (tracker_file w = Corrupt ->
        Indexer.load_processed_files w = (Raise JSONDecodeError, w)
        /\ Indexer.index_document E f w = (Indexer.Failed JSONDecodeError, w)
        /\ forall fs, Indexer.index_documents E fs w = w).
Proof.
  intros Hb Hf. split; intros Ht.
  - split_and!;
      [unfold Indexer.load_processed_files; by rewrite Ht | | by apply missing_as_empty].
    intros (? & ? & _ & _ & _ & processed & entry & Hp & _)
      %index_document_skipped_unchanged.
    congruence.
  - split; [unfold Indexer.load_processed_files; by rewrite Ht |].
    assert (forall g, (Indexer.index_document E g w).2 = w) as Hsame.
    { intros g. unfold Indexer.index_document, Indexer.index_document_try,
        mbind, Indexer.get_object, Indexer.load_processed_files.
      rewrite Hb. destruct (objects !! g); simpl; [by rewrite Ht | done]. }
    split.
    + unfold Indexer.index_document, Indexer.index_document_try,
        mbind, Indexer.get_object, Indexer.load_processed_files.
      by rewrite Hb, Hf, Ht.
    + intros fs. unfold Indexer.index_documents.
      induction fs as [|g fs IH]; [done |]. simpl. by rewrite Hsame.
Qed.

End Tracker.

Section TrackerRuns.

Lemma split_text_into_chunks_spec_witness :
  exists chunks : list string,
    Indexer.split_text_into_chunks "abcdefghij" 4 = Ok chunks
    /\ Z.of_nat (length chunks) = ceil_div (len "abcdefghij") 4
    /\ (forall (i : nat) (c : string), chunks !! i = Some c ->
          len c = Z.min 4 (len "abcdefghij" - Z.of_nat i * 4)
          /\ forall k : nat, (k < String.length c)%nat ->
               String.get k c = String.get (i * Z.to_nat 4 + k) "abcdefghij")
    /\ (forall (i : nat) (c : string), chunks !! i = Some c ->
          (S i < length chunks)%nat -> len c = 4)
    /\ Py.join chunks = "abcdefghij"%string
    /\ ("abcdefghij"%string = EmptyString -> chunks = []).
Proof. apply (split_text_into_chunks_spec "abcdefghij" 4). lia. Defined.

Lemma recorded_as_true (w : World) (f h : string) :
  Sample.recorded_as w f h = true <-> recorded w f h.
Proof.
  unfold Sample.recorded_as, recorded. split.
  - destruct (tracker_file w) as [| | processed]; try done.
    destruct (processed !! f) as [entry|] eqn:He; [| done].
    intros Hh%String.eqb_eq. by exists processed, entry.
  - intros (processed & entry & -> & -> & <-). apply String.eqb_refl.
Qed.

Lemma unchanged_rerun_alters_nothing_witness :
  Forall (fun f => Indexer.index_document (Sample.env false []) f Sample.library_indexed
                   = (Indexer.SkippedUnchanged, Sample.library_indexed))
         ["memo.pdf"; "letter.pdf"]
  /\ Indexer.index_documents (Sample.env false []) ["memo.pdf"; "letter.pdf"]
       Sample.library_indexed = Sample.library_indexed
  /\ Indexer.index_all_documents (Sample.env false []) Sample.library_indexed
     = Sample.library_indexed.
Proof.
  destruct (unchanged_rerun_alters_nothing (Sample.env false [])
              Sample.library_indexed Sample.library ["memo.pdf"; "letter.pdf"])
    as (H1 & H2 & H3).
  - reflexivity.
  - by_vm.
  - repeat constructor.
    + exists (Sample.bytes_of "to whom it may concern"). split; [by_vm |].
      apply recorded_as_true. by_vm.
    + exists (Sample.bytes_of "dear reader"). split; [by_vm |].
      apply recorded_as_true. by_vm.
  - split_and!; [exact H1 | exact H2 |]. apply H3.
    + exists (default ∅ (collection Sample.library_indexed)). by_vm.
    + by_vm.
Defined.

Lemma empty_chunks_are_skipped_witness :
  Indexer.index_document (Sample.env false []) "blank.pdf" Sample.fresh_world
  = (Indexer.SkippedEmpty, Sample.fresh_world)
  /\ Indexer.index_document (Sample.env false []) "blank.pdf"
       (Indexer.index_document (Sample.env false []) "blank.pdf"
          Sample.fresh_world).2
     = (Indexer.SkippedEmpty, Sample.fresh_world).
Proof.
  apply (empty_chunks_are_skipped (Sample.env false []) Sample.fresh_world
           "blank.pdf" Sample.objects (Sample.bytes_of "   ") EmptyString 1).
  - reflexivity.
  - by_vm.
  - discriminate.
  - right. intros H%recorded_as_true. discriminate H.
  - by_vm.
  - by_vm.
  - reflexivity.
Defined.

Lemma store_read_failure_witness :
  (Indexer.load_processed_files Sample.fresh_world = (Ok ∅, Sample.fresh_world)
   /\ (Indexer.index_document (Sample.env false []) "report.pdf"
         Sample.fresh_world).1 <> Indexer.SkippedUnchanged
   /\ (Indexer.index_document (Sample.env false []) "report.pdf"
         Sample.fresh_world).1
      = (Indexer.index_document (Sample.env false []) "report.pdf"
           (set_tracker_file (Stored ∅) Sample.fresh_world)).1)
  /\ (Indexer.load_processed_files Sample.corrupt_world
      = (Raise JSONDecodeError, Sample.corrupt_world)
      /\ Indexer.index_document (Sample.env false []) "report.pdf"
           Sample.corrupt_world
         = (Indexer.Failed JSONDecodeError, Sample.corrupt_world)
      /\ forall fs, Indexer.index_documents (Sample.env false []) fs
                      Sample.corrupt_world = Sample.corrupt_world).
Proof.
  split.
  - apply (store_read_failure (Sample.env false []) Sample.fresh_world
             "report.pdf" Sample.objects
             (Sample.bytes_of (Sample.text_of_length 1050)));
      [reflexivity | by_vm | reflexivity].
  - apply (store_read_failure (Sample.env false []) Sample.corrupt_world
             "report.pdf" Sample.objects
             (Sample.bytes_of (Sample.text_of_length 1050)));
      [reflexivity | by_vm | reflexivity].
Defined.

(** C4, as the claim has it, fails on a tracker file that does not parse:
    the read is not turned into the empty mapping, and the document, which
    is indexed when the mapping is empty, ends as failed. *)
Lemma corrupt_store_fails_document :
  tracker_file Sample.corrupt_world = Corrupt
  /\ (Indexer.load_processed_files Sample.corrupt_world).1 <> Ok ∅
  /\ (Indexer.index_document (Sample.env false []) "report.pdf"
        Sample.corrupt_world).1 = Indexer.Failed JSONDecodeError
  /\ (Indexer.index_document (Sample.env false []) "report.pdf"
        (set_tracker_file (Stored ∅) Sample.corrupt_world)).1 = Indexer.Indexed.
Proof.
  split_and!; [reflexivity | discriminate | by_vm | by_vm].
Qed.

End TrackerRuns.

(** ** The upload loop *)

Section Delivery.

Context (E : Env).

Lemma delivery_app n c b1 c1 b2 ok c2 :
  delivery E n c b1 true c1 ->
  delivery E (n + length b1) c1 b2 ok c2 ->
  delivery E n c (b1 ++ b2) ok c2.
Proof.
  intros H. remember true as t eqn:Ht. revert Ht.
  induction H as [n c | n c batch batches ok' c' Hacc H IH | n c batch Hrej];
    intros Ht H2.
  - simpl in H2. by rewrite Nat.add_0_r in H2.
  - simpl. apply delivery_accepted; [done |]. apply IH; [done |].
    replace (S n + length batches)%nat
      with (n + length (batch :: batches))%nat by (simpl; lia).
    done.
  - done.
Qed.




Lemma sends_nothing (w : World) : sends E w w [] true.
Proof.
  unfold sends. rewrite app_nil_r. split_and!; try done. apply delivery_done.
Qed.

Lemma sends_trans w w1 w2 b1 b2 ok :
  sends E w w1 b1 true -> sends E w1 w2 b2 ok -> sends E w w2 (b1 ++ b2) ok.
Proof.
  intros (Hu1 & Hb1 & Ht1 & Hl1 & Hd1) (Hu2 & Hb2 & Ht2 & Hl2 & Hd2).
  unfold sends. split_and!; try congruence.
  - by rewrite Hu2, Hu1, app_assoc.
  - eapply delivery_app; [done |]. by rewrite Hu1, length_app in Hd2.
Qed.

Lemma sends_tick (w : World) : sends E w (tick E w).2 [] true.
Proof.
  unfold sends, tick. simpl. rewrite app_nil_r.
  split_and!; try done. apply delivery_done.
Qed.

Lemma sends_upsert (pts : list PointStruct) (w : World) :
  match qdrant_upsert E pts w with
  | (Ok _, w') => sends E w w' [pts] true
  | (Raise e, w') => e = UnexpectedResponse /\ sends E w w' [pts] false
  end.
Proof.
  unfold qdrant_upsert, sends.
  destruct (collection w) as [c|] eqn:Hc.
  - destruct (upsert_accepted E (length (upserts w))) eqn:Hacc; simpl;
      rewrite ?Hc.
    + split_and!; try done.
      apply delivery_accepted; [done | apply delivery_done].
    + split_and!; try done. apply delivery_rejected. by right.
  - simpl. rewrite Hc. split_and!; try done. apply delivery_rejected. by left.
Qed.

End Delivery.

Lemma for_each_cons {A S} (body : A -> S -> M S) (a : A) (l : list A)
    (s : S) (w : World) :
  for_each body (a :: l) s w
  = match body a s w with
    | (Ok s', w') => for_each body l s' w'
    | (Raise e, w') => (Raise e, w')
    end.
Proof. reflexivity. Qed.

Section UploadLoop.

Context (E : Env) (f : string) (metadata : json) (total : Z).

Lemma chunk_payload_index (chunk : string) (i : Z) (now : Q) :
  Indexer.chunk_payload chunk metadata i total now !! "chunk_index"
  = Some (JInt i).
Proof.
  unfold Indexer.chunk_payload.
  rewrite lookup_insert_ne by done. rewrite lookup_insert_ne by done.
  apply lookup_insert_eq.
Qed.

(** One turn of the loop: the record is put in the batch, and the batch is
    sent when it reaches a hundred records. *)
Lemma index_chunk_sends (i : Z) (chunk : string) (pts : list PointStruct)
    (w : World) :
  (length pts < 100)%nat ->
  match Indexer.index_chunk E f metadata total (i, chunk) pts w with
  | (Ok pts', w') =>
      exists p, made_for E f i p
        /\ ((pts' = pts ++ [p] /\ (length pts' < 100)%nat
             /\ sends E w w' [] true)
            \/ (pts' = [] /\ length (pts ++ [p]) = 100%nat
                /\ sends E w w' [pts ++ [p]] true))
  | (Raise e, w') =>
      sends E w w' [] true
      \/ exists p, made_for E f i p /\ length (pts ++ [p]) = 100%nat
           /\ e = UnexpectedResponse /\ sends E w w' [pts ++ [p]] false
  end.
Proof.
  intros Hlen. unfold Indexer.index_chunk, mbind, lift, time_time.
  destruct (Indexer.chunk_id E f i) as [id | e] eqn:Hid;
    [| left; apply sends_nothing].
  destruct (tick E w) as [now w1] eqn:Htick.
  assert (Hw1 : sends E w w1 [] true).
  { pose proof (sends_tick E w) as H. by rewrite Htick in H. }
  set (p := {| point_id := id; vector := embed E chunk;
               point_payload := Indexer.chunk_payload chunk metadata i total now |}).
  assert (Hp : made_for E f i p).
  { split; [| done]. unfold chunk_index_of. simpl.
    by rewrite chunk_payload_index. }
  assert (Hlen' : length (pts ++ [p]) = S (length pts))
    by (rewrite length_app; simpl; lia).
  destruct (Z.leb_spec 100 (Z.of_nat (length (pts ++ [p])))) as [Hfull | Hroom].
  - pose proof (sends_upsert E (pts ++ [p]) w1) as Hup.
    destruct (qdrant_upsert E (pts ++ [p]) w1) as [[[] | e] w2]; simpl.
    + exists p. split; [done |]. right. split_and!; [done | lia |].
      apply (sends_trans E w w1 w2 [] _ true Hw1 Hup).
    + right. exists p. destruct Hup as [-> Hup]. split_and!; [done | lia | done |].
      apply (sends_trans E w w1 w2 [] _ false Hw1 Hup).
  - simpl. exists p. split; [done |]. left. split_and!; [done | lia | done].
Qed.

Lemma index_chunks_sends (l : list string) :
  forall (j : nat) (pts : list PointStruct) (w : World) r w',
    (length pts < 100)%nat ->
    for_each (Indexer.index_chunk E f metadata total)
             (imap (fun i a => (Z.of_nat (j + i), a)) l) pts w = (r, w') ->
    exists batches ok buffer new,
      sends E w w' batches ok
      /\ Forall (fun b => length b = 100%nat) batches
      /\ concat batches ++ buffer = pts ++ new
      /\ Forall2 (made_for E f) (Z.of_nat <$> seq j (length new)) new
      /\ (length new <= length l)%nat
      /\ match r with
         | Ok pts' => ok = true /\ buffer = pts' /\ (length pts' < 100)%nat
                      /\ length new = length l
         | Raise e => ok = false -> e = UnexpectedResponse
         end.
Proof.
  induction l as [|chunk l IH]; intros j pts w r w' Hlen Hrun.
  - simpl in Hrun. inversion Hrun; subst.
    exists [], true, pts, []. rewrite app_nil_r.
    split_and!; try done; try apply sends_nothing; by constructor.
  - rewrite imap_cons, for_each_cons, Nat.add_0_r in Hrun.
    pose proof (index_chunk_sends (Z.of_nat j) chunk pts w Hlen) as Hstep.
    destruct (Indexer.index_chunk E f metadata total (Z.of_nat j, chunk) pts w)
      as [[pts1 | e] w1].
    + rewrite (imap_ext _ (fun i a => (Z.of_nat (S j + i), a))) in Hrun
        by (intros; simpl; do 2 f_equal; lia).
      destruct Hstep as (p & Hp & [(-> & Hlen1 & Hs) | (-> & Hfull & Hs)]).
      * destruct (IH (S j) (pts ++ [p]) w1 r w' Hlen1 Hrun)
          as (batches & ok & buffer & new & Hs2 & Hb & Hcat & Hnew & Hle & Hr).
        exists batches, ok, buffer, (p :: new).
        split_and!; try done.
        -- apply (sends_trans E w w1 w' [] _ ok Hs Hs2).
        -- by rewrite Hcat, <- app_assoc.
        -- simpl. by constructor.
        -- simpl. lia.
        -- destruct r; [| done]. destruct Hr as (? & ? & ? & ?).
           split_and!; try done. simpl. lia.
      * destruct (IH (S j) [] w1 r w' ltac:(simpl; lia) Hrun)
          as (batches & ok & buffer & new & Hs2 & Hb & Hcat & Hnew & Hle & Hr).
        exists ((pts ++ [p]) :: batches), ok, buffer, (p :: new).
        split_and!; try done.
        -- apply (sends_trans E w w1 w' [_] _ ok Hs Hs2).
        -- by constructor.
        -- simpl. rewrite <- !app_assoc. simpl. by rewrite Hcat.
        -- simpl. by constructor.
        -- simpl. lia.
        -- destruct r; [| done]. destruct Hr as (? & ? & ? & ?).
           split_and!; try done. simpl. lia.
    + inversion Hrun; subst.
      destruct Hstep as [Hs | (p & Hp & Hfull & -> & Hs)].
      * exists [], true, pts, []. rewrite app_nil_r.
        split_and!; try done; try (by constructor); simpl; lia.
      * exists [pts ++ [p]], false, [], [p]. simpl. rewrite !app_nil_r.
        split_and!; try done.
        -- by repeat constructor.
        -- constructor; [done | constructor].
        -- lia.
Qed.

End UploadLoop.

Section Upload.

Context (E : Env) (f : string).

Lemma made_for_lookup (j : nat) (new : list PointStruct) (k : nat)
    (p : PointStruct) :
  Forall2 (made_for E f) (Z.of_nat <$> seq j (length new)) new ->
  new !! k = Some p -> made_for E f (Z.of_nat (j + k)) p.
Proof.
  intros H Hk. destruct (Forall2_lookup_r _ _ _ _ _ H Hk) as (i & Hi & Hp).
  rewrite list_lookup_fmap in Hi.
  destruct (seq j (length new) !! k) as [n|] eqn:Hn; [| done].
  apply lookup_seq in Hn as [-> _]. simpl in Hi. by inversion Hi; subst.
Qed.

(** What lines 170-203 send, and how the requests are received. *)
Lemma upload_chunks_sends (metadata : json) (chunks : list string)
    (w : World) r w' :
  Indexer.upload_chunks E f metadata chunks w = (r, w') ->
  exists batches ok,
    sends E w w' batches ok
    /\ Forall (fun b => (1 <= length b <= 100)%nat) batches
    /\ (forall k b, batches !! k = Some b -> (S k < length batches)%nat ->
          length b = 100%nat)
    /\ (forall k p, concat batches !! k = Some p -> made_for E f (Z.of_nat k) p)
    /\ (length (concat batches) <= length chunks)%nat
    /\ match r with
       | Ok _ => ok = true /\ length (concat batches) = length chunks
       | Raise e => ok = false -> e = UnexpectedResponse
       end.
Proof.
  unfold Indexer.upload_chunks, mbind, enumerate. intros Hrun.
  rewrite (imap_ext _ (fun i a => (Z.of_nat (0 + i), a))) in Hrun by done.
  destruct (for_each _ _ [] w) as [r1 w1] eqn:Hloop.
  apply index_chunks_sends in Hloop as
    (batches & ok & buffer & new & Hs & Hb & Hcat & Hnew & Hle & Hr);
    [| simpl; lia].
  simpl in Hcat.
  assert (Hfull : Forall (fun b => (1 <= length b <= 100)%nat) batches).
  { eapply Forall_impl; [exact Hb |]. simpl. intros b ->. lia. }
  assert (Hmade : forall k p, (concat batches ++ buffer) !! k = Some p ->
                              made_for E f (Z.of_nat k) p).
  { intros k p Hk. rewrite Hcat in Hk.
    apply (made_for_lookup 0 new k p Hnew Hk). }
  assert (Hhundred : forall k b, batches !! k = Some b -> length b = 100%nat).
  { intros k b Hk. by apply (Forall_lookup_1 _ _ _ _ Hb Hk). }
  assert (Hcount : (length (concat batches) + length buffer)%nat = length new)
    by (by rewrite <- Hcat, length_app).
  destruct r1 as [pts | e].
  - destruct Hr as (-> & -> & Hroom & Hall).
    destruct pts as [|p pts].
    + inversion Hrun; subst. exists batches, true.
      rewrite app_nil_r in Hmade. simpl in Hcount.
      split_and!; eauto; lia.
    + set (last := p :: pts) in *.
      pose proof (sends_upsert E last w1) as Hup.
      rewrite Hrun in Hup.
      assert (Hlast : (1 <= length last <= 100)%nat) by (simpl in *; lia).
      assert (Hcat' : concat (batches ++ [last]) = concat batches ++ last).
      { rewrite concat_app. simpl. by rewrite app_nil_r. }
      assert (Hbut : forall k b, (batches ++ [last]) !! k = Some b ->
                       (S k < length (batches ++ [last]))%nat ->
                       length b = 100%nat).
      { intros k b Hk Hlt. rewrite length_app in Hlt. simpl in Hlt.
        rewrite lookup_app_l in Hk by lia. by eapply Hhundred. }
      destruct r as [[] | e].
      * exists (batches ++ [last]), true. rewrite Hcat'.
        split_and!; eauto.
        -- apply (sends_trans E w w1 w' _ _ true Hs Hup).
        -- apply Forall_app. split; [done | by constructor].
        -- rewrite length_app. lia.
        -- rewrite length_app. lia.
      * destruct Hup as [-> Hup].
        exists (batches ++ [last]), false. rewrite Hcat'.
        split_and!; eauto.
        -- apply (sends_trans E w w1 w' _ _ false Hs Hup).
        -- apply Forall_app. split; [done | by constructor].
        -- rewrite length_app. lia.
  - inversion Hrun; subst. exists batches, ok.
    split_and!; eauto; [| lia].
    intros k p Hk. apply Hmade. by apply lookup_app_l_Some.
Qed.

End Upload.

Section IndexDocument.

Context (E : Env) (f : string).

(** What one call of [index_document] sends and leaves behind. *)
Lemma index_document_sends (w : World) :
  exists batches ok,
    upserts (Indexer.index_document E f w).2 = upserts w ++ batches
    /\ delivery E (length (upserts w)) (collection w) batches ok
         (collection (Indexer.index_document E f w).2)
    /\ Forall (fun b => (1 <= length b <= 100)%nat) batches
    /\ (forall k b, batches !! k = Some b -> (S k < length batches)%nat ->
          length b = 100%nat)
    /\ (forall k p, concat batches !! k = Some p -> made_for E f (Z.of_nat k) p)
    /\ (ok = false ->
          (Indexer.index_document E f w).1 = Indexer.Failed UnexpectedResponse)
    /\ ((Indexer.index_document E f w).1 <> Indexer.Indexed ->
          tracker_file (Indexer.index_document E f w).2 = tracker_file w).
Proof.
  assert (Hquiet : forall o : Indexer.Outcome,
    exists batches ok,
      upserts (o, w).2 = upserts w ++ batches
      /\ delivery E (length (upserts w)) (collection w) batches ok
           (collection (o, w).2)
      /\ Forall (fun b => (1 <= length b <= 100)%nat) batches
      /\ (forall k b, batches !! k = Some b -> (S k < length batches)%nat ->
            length b = 100%nat)
      /\ (forall k p, concat batches !! k = Some p ->
            made_for E f (Z.of_nat k) p)
      /\ (ok = false -> (o, w).1 = Indexer.Failed UnexpectedResponse)
      /\ ((o, w).1 <> Indexer.Indexed -> tracker_file (o, w).2 = tracker_file w)).
  { intros o. exists [], true. simpl. rewrite app_nil_r.
    split_and!; try done; try apply delivery_done;
      intros k x Hk; by rewrite lookup_nil in Hk. }
  unfold Indexer.index_document, Indexer.index_document_try, mbind,
    Indexer.get_object, Indexer.load_processed_files, lift, ret.
  destruct (bucket w) as [objects|]; [| apply Hquiet].
  destruct (objects !! f) as [data|]; [| apply Hquiet].
  cbv beta iota.
  destruct (tracker_file w) as [| | processed] eqn:Htf; [| apply Hquiet |];
    cbv beta iota;
    (destruct (Indexer.unchanged E _ f _); [apply Hquiet |];
     destruct (Py.endswith _ _); [| apply Hquiet];
     destruct (Indexer.extract_text_from_pdf E data) as [[text page_count] | e];
       [| apply Hquiet];
     cbv beta iota zeta;
     destruct (Indexer.split_text_into_chunks text Indexer.CHUNK_SIZE)
       as [[|chunk chunks] | e]; [apply Hquiet | | apply Hquiet];
     cbv beta iota;
     destruct (Indexer.upload_chunks E f _ (chunk :: chunks) w)
       as [r w1] eqn:Hup;
     apply upload_chunks_sends in Hup
       as (batches & ok & (Hu & _ & Ht & _ & Hd) & Hsz & Hbut & Hmade & _ & Hr);
     exists batches, ok; destruct r as [[] | e]; simpl;
     [ destruct Hr as [-> _]; split_and!; done
     | split_and!; try done;
       [ intros Hok; by rewrite (Hr Hok) | intros _; congruence ] ]).
Qed.

End IndexDocument.

(** ** Record identifiers *)

Section Identifier.

Lemma hex_value_digits (b : byte) :
  Py.hex_value (Py.hex_digit (Byte.to_N b / 16)) = Some (Z.of_N (Byte.to_N b / 16))
  /\ Py.hex_value (Py.hex_digit (Byte.to_N b mod 16))
     = Some (Z.of_N (Byte.to_N b mod 16)).
Proof. destruct b; split; reflexivity. Qed.

Lemma int16_from_hex (bs : list byte) (acc : Z) :
  Py.int16_from acc (Py.hex bs)
  = Ok (foldl (fun acc b => 256 * acc + Z.of_N (Byte.to_N b)) acc bs).
Proof.
  revert acc. induction bs as [|b bs IH]; intros acc; [done |].
  simpl. destruct (hex_value_digits b) as [-> ->]. rewrite IH. do 2 f_equal.
  pose proof (N.div_mod (Byte.to_N b) 16 ltac:(done)). lia.
Qed.

Lemma slice_bound_inside (n k : Z) : 0 <= k <= n -> Py.slice_bound n k = k.
Proof.
  intros H. unfold Py.slice_bound. destruct (Z.ltb_spec k 0); lia.
Qed.

Lemma hex_length (bs : list byte) :
  Py.len (Py.hex bs) = 2 * Z.of_nat (length bs).
Proof.
  unfold Py.len. induction bs as [|b bs IH]; [done |].
  cbn [Py.hex String.length length]. lia.
Qed.

Lemma hex_take_8 (bs : list byte) :
  (8 <= length bs)%nat -> Py.slice (Py.hex bs) 0 16 = Py.hex (take 8 bs).
Proof.
  intros H. unfold Py.slice.
  rewrite !slice_bound_inside by (rewrite hex_length; lia).
  do 8 (destruct bs as [|? bs]; [simpl in H; lia |]).
  apply chars_inj. rewrite chars_substring.
  change (Z.to_nat 0) with 0%nat. change (Z.to_nat (16 - 0)) with 16%nat.
  cbn [Py.hex list_ascii_of_string take drop]. reflexivity.
Qed.

Lemma hex_value_range (c : ascii) (d : Z) :
  Py.hex_value c = Some d -> 0 <= d < 16.
Proof.
  unfold Py.hex_value. intros H.
  repeat (case_match; simplify_eq); lia.
Qed.

Lemma int16_from_range (s : string) (acc v : Z) :
  0 <= acc -> Py.int16_from acc s = Ok v ->
  16 ^ Z.of_nat (String.length s) * acc <= v
  < 16 ^ Z.of_nat (String.length s) * (acc + 1).
Proof.
  revert acc. induction s as [|c s IH]; intros acc Hacc H.
  - simpl in *. inversion H. lia.
  - simpl in H. destruct (Py.hex_value c) as [d|] eqn:Hd; [| done].
    apply hex_value_range in Hd. apply IH in H; [| lia].
    replace (Z.of_nat (String.length (String c s)))
      with (Z.of_nat (String.length s) + 1) by (simpl; lia).
    rewrite Z.pow_add_r by lia.
    assert (0 < 16 ^ Z.of_nat (String.length s)) by (apply Z.pow_pos_nonneg; lia).
    nia.
Qed.

Lemma slice_length_le (s : string) (n : Z) :
  0 <= n -> (Py.len (Py.slice s 0 n) <= n).
Proof.
  intros Hn. unfold Py.slice, Py.slice_bound, Py.len.
  rewrite <- chars_length, chars_substring, length_take.
  destruct (Z.ltb_spec n 0); [lia |].
  destruct (Z.ltb_spec 0 0); lia.
Qed.

Lemma requests_made_for (E : Env) (f : string) (w : World) (p : PointStruct) :
  p ∈ concat (requests_of E f w) ->
  exists k : nat, made_for E f (Z.of_nat k) p.
Proof.
  unfold requests_of.
  destruct (index_document_sends E f w)
    as (batches & ok & Hu & _ & _ & _ & Hmade & _).
  rewrite Hu, drop_app_length.
  intros [k Hk]%list_elem_of_lookup. exists k. by apply Hmade.
Qed.

(** C6. The identifier of a record is a function of the file name and the
    chunk index alone: every record [index_document] sends carries its
    chunk index i and the identifier [chunk_id f i], whatever the world
    (the content, the clock, the store) of the run; two records sent for
    the same file and chunk index, in the same run or in two runs, have
    the same identifier; only the hash function of the environment
    enters. The identifier is the first 16 hexadecimal digits of the MD5
    digest of the UTF-8 bytes of "<file name>-<index>" read as a number,
    that is the first 8 bytes of the digest, and it is below 2^64. *)
Theorem record_identifier_deterministic (E : Env) (f : string) :
  (forall w p, p ∈ concat (requests_of E f w) ->
     exists i, chunk_index_of p = Some i
               /\ Indexer.chunk_id E f i = Ok (point_id p))
  /\ (forall w1 w2 p1 p2,
        p1 ∈ concat (requests_of E f w1) ->
        p2 ∈ concat (requests_of E f w2) ->
        chunk_index_of p1 = chunk_index_of p2 ->
        point_id p1 = point_id p2)
  /\ (forall E' i, md5 E' = md5 E ->
        Indexer.chunk_id E' f i = Indexer.chunk_id E f i)
  /\ (forall i id, Indexer.chunk_id E f i = Ok id -> 0 <= id < 2 ^ 64)
  /\ (forall i,
        (8 <= length (md5 E (Py.encode (chunk_key f i))))%nat ->
        Indexer.chunk_id E f i
        = Ok (big_endian (take 8 (md5 E (Py.encode (chunk_key f i)))))).
Proof.
  split_and!.
  - intros w p [k [Hi Hid]]%requests_made_for. eauto.
  - intros w1 w2 p1 p2 [k1 [Hi1 Hid1]]%requests_made_for
      [k2 [Hi2 Hid2]]%requests_made_for Heq.
    rewrite Hi1, Hi2 in Heq. inversion Heq as [Hk].
    rewrite Hk in Hid1. congruence.
  - intros E' i Hmd5. unfold Indexer.chunk_id. by rewrite Hmd5.
  - intros i id. unfold Indexer.chunk_id, Py.int16.
    set (s := Py.slice _ 0 16).
    pose proof (slice_length_le (Py.hex (md5 E (Py.encode
      (String.append f (String.append "-" (Py.str_of_int i)))))) 16 ltac:(lia))
      as Hlen.
    fold s in Hlen. unfold Py.len in Hlen.
    destruct s as [|c s'] eqn:Hs; [done |]. intros H.
    apply int16_from_range in H; [| lia].
    assert (16 ^ Z.of_nat (String.length (String c s')) <= 16 ^ 16)
      by (apply Z.pow_le_mono_r; lia).
    change (2 ^ 64) with (16 ^ 16). lia.
  - intros i Hlen. unfold Indexer.chunk_id. fold (chunk_key f i).
    rewrite hex_take_8 by done. unfold Py.int16.
    destruct (Py.hex (take 8 _)) eqn:Hhex.
    + exfalso. pose proof (hex_length (take 8 (md5 E (Py.encode (chunk_key f i))))) as Hl.
      rewrite Hhex, length_take in Hl. unfold Py.len in Hl.
      cbn [String.length] in Hl. lia.
    + rewrite <- Hhex. apply int16_from_hex.
Qed.

End Identifier.

(** ** The retrieval service *)

Section Hits.

Context (E : Env).

Lemma for_each_app {A S} (body : A -> S -> M S) (l1 l2 : list A) (s : S)
    (w : World) :
  for_each body (l1 ++ l2) s w
  = match for_each body l1 s w with
    | (Ok s', w') => for_each body l2 s' w'
    | (Raise e, w') => (Raise e, w')
    end.
Proof.
  revert s w. induction l1 as [|a l1 IH]; intros s w; [done |].
  rewrite <- app_comm_cons, !for_each_cons.
  destruct (body a s w) as [[s' | e] w']; [apply IH | done].
Qed.

Lemma set_logged_same (w : World) : set_logged (logged w) w = w.
Proof. by destruct w. Qed.

Lemma add_hit_cases (h : ScoredPoint) (docs : list Retriever.DocumentChunk)
    (w : World) :
  Retriever.add_hit E h docs w
  = match Retriever.make_document E h with
    | Ok d => (Ok (docs ++ [d]), w)
    | Raise (KeyError k) =>
        (Ok docs, set_logged (logged w ++ [LogWarning (KeyError k)]) w)
    | Raise e => (Raise e, w)
    end.
Proof.
  unfold Retriever.add_hit.
  destruct (Retriever.make_document E h) as [d | []]; reflexivity.
Qed.

(** The loop over benign hits: the documents in the order of the hits,
    one warning per hit left out. *)
Lemma assemble_benign (hits : list ScoredPoint) :
  Forall (benign E) hits ->
  forall docs w,
    for_each (Retriever.add_hit E) hits docs w
    = (Ok (docs ++ omap (document_of E) hits),
       set_logged (logged w ++ omap (warning_of E) hits) w).
Proof.
  induction 1 as [|h hits Hh _ IH]; intros docs w.
  - simpl. by rewrite !app_nil_r, set_logged_same.
  - rewrite for_each_cons, add_hit_cases. simpl.
    unfold benign, document_of, warning_of in *.
    destruct (Retriever.make_document E h) as [d | []]; try done;
      rewrite IH; simpl; by rewrite <- app_assoc.
Qed.

(** The loop ends well only over benign hits. *)
Lemma assemble_ok_benign (hits : list ScoredPoint) :
  forall docs w docs' w',
    for_each (Retriever.add_hit E) hits docs w = (Ok docs', w') ->
    Forall (benign E) hits.
Proof.
  induction hits as [|h hits IH]; intros docs w docs' w' Hrun; [constructor |].
  rewrite for_each_cons, add_hit_cases in Hrun. unfold benign at 1.
  constructor; destruct (Retriever.make_document E h) as [d | []];
    try done; eauto.
Qed.

Lemma make_document_score (h : ScoredPoint) (d : Retriever.DocumentChunk) :
  Retriever.make_document E h = Ok d -> Retriever.score d = hit_score h.
Proof.
  unfold Retriever.make_document, Py.bind. intros H.
  repeat (case_match; simplify_eq/=); done.
Qed.

Lemma missing_text_raises (h : ScoredPoint) (payload : gmap string json) :
  hit_payload h = Some payload -> payload !! "text" = None ->
  Retriever.make_document E h = Raise (KeyError "text").
Proof.
  intros Hp Ht. unfold Retriever.make_document, Py.bind. by rewrite Hp, Ht.
Qed.

End Hits.

Section Retrieve.

Context (E : Env).

Lemma retrieve_docs_benign (req : Retriever.QueryRequest) (w : World)
    (hits : list ScoredPoint) :
  qdrant_search E (collection w) (embed E (Retriever.query req))
    (Retriever.limit req) (Retriever.threshold req) = Ok hits ->
  Forall (benign E) hits ->
  exists resp w',
    Retriever.retrieve_docs E req w = (inr resp, w')
    /\ Retriever.documents resp = omap (document_of E) hits
    /\ Retriever.response_query resp = Retriever.query req
    /\ logged w' = logged w ++ omap (warning_of E) hits.
Proof.
  intros Hsearch Hben.
  unfold Retriever.retrieve_docs, tick, Retriever.retrieve_docs_try, mbind,
    Retriever.assemble_documents.
  simpl. rewrite Hsearch, (assemble_benign E hits Hben). simpl.
  eexists _, _. split; [reflexivity |]. by simpl.
Qed.

Lemma retrieve_docs_inr (req : Retriever.QueryRequest) (w : World)
    (resp : Retriever.QueryResponse) :
  (Retriever.retrieve_docs E req w).1 = inr resp ->
  exists hits,
    qdrant_search E (collection w) (embed E (Retriever.query req))
      (Retriever.limit req) (Retriever.threshold req) = Ok hits
    /\ Forall (benign E) hits
    /\ Retriever.documents resp = omap (document_of E) hits.
Proof.
  unfold Retriever.retrieve_docs, tick, Retriever.retrieve_docs_try, mbind,
    Retriever.assemble_documents.
  simpl.
  destruct (qdrant_search E (collection w) _ _ _) as [hits | e] eqn:Hsearch.
  - destruct (for_each (Retriever.add_hit E) hits [] _) as [[docs | e] w1] eqn:Hrun.
    + pose proof (assemble_ok_benign E hits _ _ _ _ Hrun) as Hben.
      rewrite (assemble_benign E hits Hben) in Hrun.
      inversion Hrun; subst. simpl. intros [= <-]. by exists hits.
    + by destruct e.
  - by destruct e.
Qed.

Lemma document_of_score (h : ScoredPoint) (d : Retriever.DocumentChunk) :
  document_of E h = Some d -> Retriever.score d = hit_score h.
Proof.
  unfold document_of. intros H. apply (make_document_score E).
  destruct (Retriever.make_document E h); by inversion H.
Qed.

Lemma documents_scores (hits : list ScoredPoint) (thr : Q) :
  Forall (fun h => (thr <= hit_score h)%Q) hits ->
  descending hit_score hits ->
  (length (omap (document_of E) hits) <= length hits)%nat
  /\ Forall (fun d => (thr <= Retriever.score d)%Q) (omap (document_of E) hits)
  /\ descending Retriever.score (omap (document_of E) hits).
Proof.
  unfold descending. intros Hthr Hsorted.
  induction Hsorted as [|h hits Hsorted IH Hh]; [by repeat constructor |].
  apply Forall_cons in Hthr as [Hthr_h Hthr].
  destruct (IH Hthr) as (Hlen & Hall & Hdesc).
  cbn. destruct (document_of E h) as [d|] eqn:Hd; cbn;
    [| split_and!; [lia | done | done]].
  apply document_of_score in Hd.
  split_and!; [lia | constructor; [by rewrite Hd | done] |].
  constructor; [done |]. rewrite Hd.
  clear -Hh. induction Hh as [|h' hits Hh' _ IH]; [constructor |].
  cbn. destruct (document_of E h') as [d'|] eqn:Hd'; [| done].
  apply document_of_score in Hd'. constructor; [by rewrite Hd' | done].
Qed.

End Retrieve.

Section RetrievalClaims.

Context (E : Env).

(** C8. When the Vector Store answers the search for limit N and
    threshold thr as its contract says (at most N hits, every score at
    least thr, the scores going down), a response of [retrieve_docs]
    holds at most N documents, every document has a score of at least
    thr, and the scores of the documents go down. *)
Theorem retrieve_limit_threshold_order (req : Retriever.QueryRequest)
    (w : World) (N : Z) (thr : Q) (hits : list ScoredPoint)
    (resp : Retriever.QueryResponse) :
  Retriever.limit req = Some N ->
  Retriever.threshold req = Some thr ->
  qdrant_search E (collection w) (embed E (Retriever.query req))
    (Some N) (Some thr) = Ok hits ->
  Z.of_nat (length hits) <= N ->
  Forall (fun h => (thr <= hit_score h)%Q) hits ->
  descending hit_score hits ->
  (Retriever.retrieve_docs E req w).1 = inr resp ->
  Z.of_nat (length (Retriever.documents resp)) <= N
  /\ Forall (fun d => (thr <= Retriever.score d)%Q) (Retriever.documents resp)
  /\ descending Retriever.score (Retriever.documents resp).
Proof.
  intros Hlimit Hthr Hsearch Hlen Hscores Hsorted Hresp.
  apply retrieve_docs_inr in Hresp as (hits' & Hsearch' & _ & ->).
  rewrite Hlimit, Hthr, Hsearch in Hsearch'. inversion Hsearch'; subst hits'.
  destruct (documents_scores E hits thr Hscores Hsorted) as (Hle & Hall & Hdesc).
  split_and!; [lia | done | done].
Qed.

(** C9, as the code has it. A hit whose payload is a mapping without the
    key [text] is left out and a warning is logged; the request succeeds
    with exactly the documents the other hits give, in their order,
    whenever the other hits alone assemble. *)
Theorem missing_text_hit_is_dropped (req : Retriever.QueryRequest) (w : World)
    (before after : list ScoredPoint) (h : ScoredPoint)
    (payload : gmap string json) (docs : list Retriever.DocumentChunk) :
  qdrant_search E (collection w) (embed E (Retriever.query req))
    (Retriever.limit req) (Retriever.threshold req)
  = Ok (before ++ h :: after) ->
  hit_payload h = Some payload ->
  payload !! "text" = None ->
  (Retriever.assemble_documents E (before ++ after) (tick E w).2).1 = Ok docs ->
  exists resp w',
    Retriever.retrieve_docs E req w = (inr resp, w')
    /\ Retriever.documents resp = docs
    /\ LogWarning (KeyError "text") ∈ logged w'.
Proof.
  intros Hsearch Hp Ht Hrest.
  pose proof (missing_text_raises E h payload Hp Ht) as Hraise.
  unfold Retriever.assemble_documents in Hrest.
  destruct (for_each _ (before ++ after) [] _) as [r w1] eqn:Hrun.
  simpl in Hrest. subst r.
  pose proof (assemble_ok_benign E _ _ _ _ _ Hrun) as Hben.
  rewrite (assemble_benign E _ Hben) in Hrun. inversion Hrun as [[Hdocs Hw1]].
  apply Forall_app in Hben as [Hb Ha].
  assert (Hall : Forall (benign E) (before ++ h :: after)).
  { apply Forall_app. split; [done |]. constructor; [| done].
    unfold benign. by rewrite Hraise. }
  destruct (retrieve_docs_benign E req w _ Hsearch Hall)
    as (resp & w' & Hret & Hd & _ & Hlog).
  exists resp, w'. split_and!; [done | |].
  - rewrite Hd, !omap_app. cbn. unfold document_of at 2. by rewrite Hraise.
  - rewrite Hlog, omap_app. cbn. unfold warning_of at 2. rewrite Hraise.
    set_solver.
Qed.


End RetrievalClaims.

Section RetrievalRuns.

Lemma goes_down_descending (hits : list ScoredPoint) :
  Sample.goes_down (map hit_score hits) = true -> descending hit_score hits.
Proof.
  unfold descending. induction hits as [|h hits IH]; [constructor |].
  cbn [map Sample.goes_down]. intros [Hh Hrest]%andb_prop.
  constructor; [by apply IH |].
  rewrite forallb_forall in Hh. apply List.Forall_forall. intros h' Hin.
  apply Qle_bool_iff, Hh, in_map, Hin.
Qed.

Lemma within_contract (n : Z) (thr : Q) (hits : list ScoredPoint) :
  Sample.within n thr (map hit_score hits) = true ->
  Z.of_nat (length hits) <= n
  /\ Forall (fun h => (thr <= hit_score h)%Q) hits
  /\ descending hit_score hits.
Proof.
  unfold Sample.within. intros [[Hlen Hthr]%andb_prop Hdown]%andb_prop.
  split_and!.
  - apply Z.leb_le in Hlen. by rewrite length_map in Hlen.
  - rewrite forallb_forall in Hthr. apply List.Forall_forall. intros h Hin.
    apply Qle_bool_iff, Hthr, in_map, Hin.
  - by apply goes_down_descending.
Qed.


Lemma retrieve_limit_threshold_order_witness :
  exists resp,
    (Retriever.retrieve_docs (Sample.env false []) Sample.request
       (Sample.serving Sample.answers)).1 = inr resp
    /\ length (Retriever.documents resp) = 2%nat
    /\ Z.of_nat (length (Retriever.documents resp)) <= 3
    /\ Forall (fun d => (7 # 10 <= Retriever.score d)%Q) (Retriever.documents resp)
    /\ descending Retriever.score (Retriever.documents resp).
Proof.
  exists (Sample.response_of
            (Retriever.retrieve_docs (Sample.env false []) Sample.request
               (Sample.serving Sample.answers)).1).
  split; [by_vm |]. split; [by_vm |].
  destruct (within_contract 3 (7 # 10) (Sample.hits_in Sample.answers))
    as (Hlen & Hthr & Hdown); [by_vm |].
  apply (retrieve_limit_threshold_order (Sample.env false []) Sample.request
           (Sample.serving Sample.answers) 3 (7 # 10)
           (Sample.hits_in Sample.answers));
    [reflexivity | reflexivity | by_vm | exact Hlen | exact Hthr | exact Hdown
    | by_vm].
Defined.

Lemma missing_text_hit_is_dropped_witness :
  exists resp w',
    Retriever.retrieve_docs (Sample.env false []) Sample.request
      (Sample.serving Sample.answers) = (inr resp, w')
    /\ Retriever.documents resp
       = Sample.found (Retriever.assemble_documents (Sample.env false [])
           [Sample.hit 1 [(81 # 100)%Q; 0%Q]
              (Sample.full_payload "revenue grew" "report.pdf" 0 2);
            Sample.hit 4 [(75 # 100)%Q; 0%Q] (Sample.text_only "revenue outlook")]
           (tick (Sample.env false []) (Sample.serving Sample.answers)).2).1
    /\ LogWarning (KeyError "text") ∈ logged w'.
Proof.
  apply (missing_text_hit_is_dropped (Sample.env false []) Sample.request
           (Sample.serving Sample.answers) []
           [Sample.hit 1 [(81 # 100)%Q; 0%Q]
              (Sample.full_payload "revenue grew" "report.pdf" 0 2);
            Sample.hit 4 [(75 # 100)%Q; 0%Q] (Sample.text_only "revenue outlook")]
           (Sample.hit 3 [(9 # 10)%Q; 0%Q] (Sample.without_text "memo.pdf"))
           (Sample.without_text "memo.pdf"));
    [by_vm | reflexivity | by_vm | by_vm].
Defined.

(** C9, as the claim has it, fails on a hit whose [metadata] is a string:
    the search finds two hits, one of them gives a document on its own,
    yet the request ends with the status 500, returns no document, and
    the log holds the error, not a warning about a dropped hit. *)
Lemma malformed_metadata_fails_request :
  map hit_id (Sample.hits_in Sample.broken) = [5; 1]
  /\ map hit_payload (Sample.hits_in Sample.broken)
     = [Some (Sample.metadata_not_a_mapping "revenue fell");
        Some (Sample.full_payload "revenue grew" "report.pdf" 0 2)]
  /\ length (omap (document_of (Sample.env false [])) (Sample.hits_in Sample.broken))
     = 1%nat
  /\ (Retriever.retrieve_docs (Sample.env false []) Sample.request
        (Sample.serving Sample.broken)).1
     = inl {| Retriever.status_code := 500;
              Retriever.detail := "Internal server error: ";
              Retriever.cause := AttributeError |}
  /\ logged (Retriever.retrieve_docs (Sample.env false []) Sample.request
               (Sample.serving Sample.broken)).2
     = [LogError AttributeError].
Proof. split_and!; by_vm. Qed.



End RetrievalRuns.

(** ** Runs on the test doubles *)

Section Runs.

(** The chunker on a short text, on a chunk size of zero and on a negative
    one. *)
Example chunks_of_ten_characters :
  Indexer.split_text_into_chunks "abcdefghij" 4 = Ok ["abcd"; "efgh"; "ij"]%string
  /\ Indexer.split_text_into_chunks "abcdefghij" 0 = Raise ValueError
  /\ Indexer.split_text_into_chunks "abcdefghij" (-3) = Ok [].
Proof. split_and!; reflexivity. Qed.

(** A first run over the bucket: the PDF of 1050 characters gives one
    request of three records, with the chunk indices 0, 1, 2, texts of
    500, 500 and 50 characters and a total of 3; the PDF without text and
    the file that is not a PDF leave no tracker entry. *)
Example first_run :
  map (map chunk_index_of) (upserts Sample.indexed_world)
  = [[Some 0; Some 1; Some 2]]
  /\ map (map (fun p => match point_payload p !! "text" with
                        | Some (JStr s) => Py.len s
                        | _ => -1
                        end)) (upserts Sample.indexed_world)
     = [[500; 500; 50]]
  /\ map (map (fun p => point_payload p !! "total_chunks"))
       (upserts Sample.indexed_world)
     = [[Some (JInt 3); Some (JInt 3); Some (JInt 3)]]
  /\ map fst (map_to_list (Sample.tracked Sample.indexed_world)) = ["report.pdf"%string]
  /\ (Indexer.index_document (Sample.env false []) "notes.txt"
        Sample.fresh_world).1 = Indexer.SkippedUnsupported
  /\ (Indexer.index_document (Sample.env false []) "gone.pdf"
        Sample.fresh_world).1 = Indexer.Failed S3Error.
Proof. split_and!; by_vm. Qed.

(** The only request of a short document is turned down: the document
    fails, the collection stays empty and no tracker file is written. *)
Example rejected_request :
  Indexer.index_document (Sample.env false [0%nat]) "memo.pdf"
    (Sample.world Sample.library Missing (Some ∅))
  = (Indexer.Failed UnexpectedResponse,
     set_upserts
       (Spec.requests_of (Sample.env false [0%nat]) "memo.pdf"
          (Sample.world Sample.library Missing (Some ∅)))
       (set_clock 1 (Sample.world Sample.library Missing (Some ∅))))
  /\ map length (Spec.requests_of (Sample.env false [0%nat]) "memo.pdf"
                   (Sample.world Sample.library Missing (Some ∅)))
     = [1%nat].
Proof. split_and!; by_vm. Qed.

(** A request with limit 3 and threshold 0.7 against records that score
    0.81, 0.4, 0.9 (no text) and 0.75. *)
Example retrieve_two_documents :
  map Retriever.text
    (Retriever.documents
       (Sample.response_of
          (Retriever.retrieve_docs (Sample.env false []) Sample.request
             (Sample.serving Sample.answers)).1))
  = ["revenue grew"; "revenue outlook"]%string.
Proof. by_vm. Qed.

End Runs.

(** ** The paths of [index_document], one by one *)

Section Paths.

Context (E : Env) (f : string).

(** Every call of [index_document] goes one of the ways of [run]. *)
Lemma index_document_run (w : World) :
  run E f w (Indexer.index_document E f w).1 (Indexer.index_document E f w).2.
Proof.
  unfold Indexer.index_document, Indexer.index_document_try, mbind,
    Indexer.get_object, Indexer.load_processed_files, lift, ret,
    Indexer.save_processed_files, time_time.
  destruct (bucket w) as [objects|] eqn:Hb;
    [| simpl; apply run_no_object; intros data (? & ? & ?); simplify_eq].
  destruct (objects !! f) as [data|] eqn:Hf;
    [| simpl; apply run_no_object; intros data (? & ? & ?); simplify_eq].
  assert (Hfetch : fetched w f data) by (by exists objects).
  cbv beta iota.
  destruct (tracker_file w) as [| | processed] eqn:Ht;
    [| simpl; by eapply run_unreadable |];
    cbv beta iota;
    match goal with
    | |- context [Indexer.unchanged E ?p f _] =>
        assert (Hload : loaded w p) by (first [by left | by right])
    end;
    (destruct (Indexer.unchanged E _ f _) eqn:Hu;
       [by eapply run_unchanged |];
     destruct (Py.endswith _ _) eqn:Hpdf; [| by eapply run_unsupported];
     destruct (Indexer.extract_text_from_pdf E data) as [[text page_count] | e]
       eqn:Htext; [| by eapply run_no_text];
     cbv beta iota zeta;
     destruct (Indexer.split_text_into_chunks text Indexer.CHUNK_SIZE)
       as [[|chunk chunks] | e] eqn:Hsplit;
       [by eapply run_empty | | by eapply run_no_chunks];
     cbv beta iota;
     destruct (Indexer.upload_chunks E f _ (chunk :: chunks) w)
       as [[[] | e] w1] eqn:Hup; simpl;
     [by eapply run_indexed | by eapply run_upload_failed]).
Qed.

End Paths.

(** ** What a call leaves of the world *)

Section Footprint.

Context (E : Env).

Lemma store_points_dom (pts : list PointStruct) (c : Collection) :
  dom (store_points pts c) = dom c ∪ list_to_set (point_id <$> pts).
Proof.
  unfold store_points. revert c.
  induction pts as [|p pts IH]; intros c; simpl; [set_solver |].
  rewrite IH, dom_insert_L. set_solver.
Qed.

(** The identifiers after a delivery: those there before and those of the
    batches that were accepted. *)
Lemma delivery_dom n c batches ok c' :
  delivery E n c batches ok c' ->
  match c, c' with
  | Some m, Some m' =>
      dom m ⊆ dom m'
      /\ dom m' ⊆ dom m ∪ list_to_set (point_id <$> concat batches)
      /\ (ok = true -> dom m' = dom m ∪ list_to_set (point_id <$> concat batches))
  | None, None => batches <> [] -> ok = false
  | _, _ => False
  end.
Proof.
  induction 1 as [n c | n c batch batches ok c' Hacc H IH | n c batch Hrej].
  - destruct c; [| done]. set_solver.
  - destruct c' as [m'|]; [| done].
    destruct IH as (Hsub & Hsup & Heq).
    rewrite store_points_dom in Hsub, Hsup, Heq.
    simpl. rewrite fmap_app, list_to_set_app_L.
    split_and!; [set_solver | set_solver |].
    intros Hok. rewrite (Heq Hok). set_solver.
  - destruct c; [| done]. split_and!; [done | set_solver | done].
Qed.

Lemma upload_footprint (f : string) (metadata : json) (chunks : list string)
    (w : World) r w1 :
  Indexer.upload_chunks E f metadata chunks w = (r, w1) ->
  bucket w1 = bucket w /\ tracker_file w1 = tracker_file w
  /\ logged w1 = logged w
  /\ ids w ⊆ ids w1
  /\ (forall id, id ∈ ids w1 -> id ∈ ids w
        \/ exists i : nat, (i < length chunks)%nat
             /\ Indexer.chunk_id E f (Z.of_nat i) = Ok id)
  /\ (r = Ok tt -> is_Some (collection w) ->
      forall i : nat, (i < length chunks)%nat ->
        exists id, Indexer.chunk_id E f (Z.of_nat i) = Ok id /\ id ∈ ids w1).
Proof.
  intros Hup.
  apply upload_chunks_sends in Hup
    as (batches & ok & (Hu & Hb & Ht & Hl & Hd) & _ & _ & Hmade & Hlen & Hr).
  apply delivery_dom in Hd.
  assert (Hids : forall id, id ∈ (list_to_set (point_id <$> concat batches) : gset Z) ->
            exists i : nat, (i < length chunks)%nat
              /\ Indexer.chunk_id E f (Z.of_nat i) = Ok id).
  { intros id Hid. apply elem_of_list_to_set, list_elem_of_fmap in Hid
      as (p & -> & [k Hk]%list_elem_of_lookup).
    exists k. split; [apply lookup_lt_Some in Hk; lia |].
    by destruct (Hmade k p Hk). }
  unfold ids. split_and!; try done.
  - destruct (collection w), (collection w1); try done. by destruct Hd.
  - destruct (collection w), (collection w1); try done.
    destruct Hd as (_ & Hsup & _). intros id Hid.
    apply Hsup, elem_of_union in Hid as [? | ?]; auto.
  - intros -> [m Hm] i Hi. destruct Hr as [-> Hall].
    rewrite Hm in Hd. destruct (collection w1) as [m'|]; [| done].
    destruct Hd as (_ & _ & Heq). specialize (Heq eq_refl).
    rewrite <- Hall in Hi. apply lookup_lt_is_Some in Hi as [p Hp].
    destruct (Hmade i p Hp) as [_ Hid]. exists (point_id p). split; [done |].
    rewrite Heq. apply elem_of_union_r, elem_of_list_to_set, list_elem_of_fmap.
    exists p. split; [done |]. by eapply list_elem_of_lookup_2.
Qed.

End Footprint.

Section IndexerInvariants.

Context (E : Env).

Lemma index_documents_invariant (P : World -> Prop) (fs : list string) :
  (forall f w, f ∈ fs -> P w -> P (Indexer.index_document E f w).2) ->
  forall w, P w -> P (Indexer.index_documents E fs w).
Proof.
  unfold Indexer.index_documents.
  induction fs as [|f fs IH]; intros Hstep w Hw; [done |].
  simpl. apply IH.
  - intros g w' Hg. apply Hstep. by right.
  - apply Hstep; [by left | done].
Qed.

Lemma fetched_same (w : World) (f : string) (d1 d2 : list byte) :
  fetched w f d1 -> fetched w f d2 -> d1 = d2.
Proof. intros (o1 & H1 & G1) (o2 & H2 & G2). congruence. Qed.

Lemma loaded_entries (w : World) (processed : gmap string Entry) :
  loaded w processed -> entries w = processed.
Proof. unfold entries. by intros [[-> ->] | ->]. Qed.

(** The object store is only read: one call, and the whole pipeline,
    leave the bucket as it was; the indexer logs nothing. *)
Theorem indexer_only_reads_the_bucket (w : World) :
  (forall f, bucket (Indexer.index_document E f w).2 = bucket w
             /\ logged (Indexer.index_document E f w).2 = logged w)
  /\ bucket (Indexer.index_all_documents E w) = bucket w
  /\ logged (Indexer.index_all_documents E w) = logged w.
Proof.
  assert (Hone : forall f w, bucket (Indexer.index_document E f w).2 = bucket w
             /\ logged (Indexer.index_document E f w).2 = logged w).
  { intros f w0. pose proof (index_document_run E f w0) as Hrun.
    destruct (Indexer.index_document E f w0) as [o w']. simpl in *.
    inversion Hrun; subst; try done;
      match goal with
      | H : Indexer.upload_chunks _ _ _ _ _ = _ |- _ =>
          apply upload_footprint in H as (Hb & _ & Hl & _)
      end; by simpl.
  }
  split; [intros f; apply Hone |].
  unfold Indexer.index_all_documents.
  destruct (bucket w) as [objects|] eqn:Hb; [| by rewrite Hb].
  set (w1 := if FORCE_REINDEX E then _ else _).
  assert (Hw1 : bucket w1 = bucket w /\ logged w1 = logged w).
  { unfold w1, Indexer.reset_collection, Indexer.ensure_collection_exists.
    destruct (FORCE_REINDEX E); [done |]. by destruct (collection w). }
  rewrite <- Hb. destruct Hw1 as [<- <-].
  apply (index_documents_invariant
           (fun w' => bucket w' = bucket w1 /\ logged w' = logged w1));
    [| done].
  intros f w' _ [<- <-]. apply Hone.
Qed.

(* A call drops no entry of the tracker. *)
Lemma entries_kept (f : string) (w : World) (g : string) :
  is_Some (entries w !! g) ->
  is_Some (entries (Indexer.index_document E f w).2 !! g).
Proof.
  intros Hg. pose proof (index_document_run E f w) as Hrun.
  destruct (Indexer.index_document E f w) as [o w']. simpl in *.
  inversion Hrun; subst; try done.
  - match goal with
    | H : Indexer.upload_chunks _ _ _ _ _ = _ |- _ =>
        apply upload_footprint in H as (_ & Ht & _)
    end.
    unfold entries in *. by rewrite Ht.
  - match goal with H : loaded w _ |- _ => rename H into Hload end.
    rewrite (loaded_entries w processed Hload) in Hg.
    unfold entries. simpl.
    destruct (decide (g = f)) as [-> | Hgf];
      [rewrite lookup_insert_eq; by eexists | by rewrite lookup_insert_ne].
Qed.

(* The identifiers of the collection before and after a call. *)
Lemma index_document_ids (f : string) (w : World) :
  ids w ⊆ ids (Indexer.index_document E f w).2
  /\ (forall id, id ∈ ids (Indexer.index_document E f w).2 ->
        id ∈ ids w \/ exists i : nat, Indexer.chunk_id E f (Z.of_nat i) = Ok id).
Proof.
  destruct (index_document_sends E f w)
    as (batches & ok & _ & Hd & _ & _ & Hmade & _).
  apply delivery_dom in Hd. unfold ids.
  destruct (collection w) as [m|], (collection (Indexer.index_document E f w).2)
    as [m'|]; try done.
  destruct Hd as (Hsub & Hsup & _). split; [done |].
  intros id [Hid | Hid]%Hsup%elem_of_union; [by left | right].
  apply elem_of_list_to_set, list_elem_of_fmap in Hid
    as (p & -> & [k Hk]%list_elem_of_lookup).
  exists k. by destruct (Hmade k p Hk).
Qed.


End IndexerInvariants.

Section AfterIndexing.

Context (E : Env).

Lemma delivery_all_accepted n c batches c' :
  delivery E n c batches true c' ->
  (batches <> [] -> is_Some c)
  /\ forall k, (k < length batches)%nat -> upsert_accepted E (n + k) = true.
Proof.
  intros H. remember true as ok eqn:Hok. revert Hok.
  induction H as [n c | n c batch batches ok c' Hacc H IH | n c batch Hrej];
    intros Hok; [| | done].
  - split; [intros H; by destruct H | intros k Hk; simpl in Hk; lia].
  - destruct (IH Hok) as [_ Hall]. subst ok. split; [intros _; eauto |].
    intros [|k] Hk; [by rewrite Nat.add_0_r |].
    replace (n + S k)%nat with (S n + k)%nat by lia. apply Hall. simpl in Hk. lia.
Qed.

(** What the call did when it ended as indexed. *)
Lemma indexed_inversion (f : string) (w : World) :
  (Indexer.index_document E f w).1 = Indexer.Indexed ->
  exists data processed text page_count chunks w1,
    fetched w f data /\ loaded w processed
    /\ Indexer.extract_text_from_pdf E data = Ok (text, page_count)
    /\ Indexer.split_text_into_chunks text Indexer.CHUNK_SIZE = Ok chunks
    /\ chunks <> []
    /\ Indexer.upload_chunks E f (Indexer.pdf_metadata f page_count) chunks w
       = (Ok tt, w1)
    /\ (Indexer.index_document E f w).2
       = set_tracker_file
           (Stored (<[f := {| hash := Indexer.get_file_hash E data;
                              last_indexed := (tick E w1).1 |}]> processed))
           (tick E w1).2.
Proof.
  pose proof (index_document_run E f w) as Hrun.
  destruct (Indexer.index_document E f w) as [o w']. simpl in *.
  intros ->. inversion Hrun; subst.
  by exists data, processed, text, page_count, chunks, w1.
Qed.

(* What a call that ended as indexed has sent and stored. *)
Lemma indexed_stores_all (f : string) (w : World) :
  (Indexer.index_document E f w).1 = Indexer.Indexed ->
  exists data text page_count chunks,
    fetched w f data
    /\ Indexer.extract_text_from_pdf E data = Ok (text, page_count)
    /\ Indexer.split_text_into_chunks text Indexer.CHUNK_SIZE = Ok chunks
    /\ chunks <> []
    /\ is_Some (collection w)
    /\ length (concat (requests_of E f w)) = length chunks
    /\ (forall k, (k < length (requests_of E f w))%nat ->
          upsert_accepted E (length (upserts w) + k) = true)
    /\ (forall i : nat, (i < length chunks)%nat ->
          exists id, Indexer.chunk_id E f (Z.of_nat i) = Ok id
                     /\ id ∈ ids (Indexer.index_document E f w).2).
Proof.
  intros Hok. unfold requests_of.
  destruct (indexed_inversion f w Hok)
    as (data & processed & text & page_count & chunks & w1 & Hf & Hl & Ht & Hs
        & Hne & Hup & ->).
  exists data, text, page_count, chunks.
  pose proof Hup as Hsends.
  apply upload_chunks_sends in Hsends
    as (batches & ok & (Hu & _ & _ & _ & Hd) & _ & _ & _ & _ & [-> Hlen]).
  destruct (delivery_all_accepted _ _ _ _ Hd) as [Hsome Hacc].
  assert (Hc : is_Some (collection w)).
  { apply Hsome. intros ->. simpl in Hlen. destruct chunks; done. }
  simpl. rewrite Hu, drop_app_length.
  split_and!; try done.
  apply upload_footprint in Hup as (_ & _ & _ & _ & _ & Hall).
  intros i Hi. destruct (Hall eq_refl Hc i Hi) as (id & Hid & Hin).
  exists id. split; [done |]. by unfold ids in *.
Qed.

(** Ending as indexed means that everything went through: the collection
    existed, the requests carry one record per chunk of the extracted
    text, every request was accepted, afterwards the collection holds a
    record under the identifier of every chunk, and the tracker records
    the hash of the content for the file. *)
Theorem indexed_means_all_chunks_stored (f : string) (w : World) :
  (Indexer.index_document E f w).1 = Indexer.Indexed ->
  exists data text page_count chunks,
    fetched w f data
    /\ Indexer.extract_text_from_pdf E data = Ok (text, page_count)
    /\ Indexer.split_text_into_chunks text Indexer.CHUNK_SIZE = Ok chunks
    /\ chunks <> []
    /\ is_Some (collection w)
    /\ length (concat (requests_of E f w)) = length chunks
    /\ (forall k, (k < length (requests_of E f w))%nat ->
          upsert_accepted E (length (upserts w) + k) = true)
    /\ (forall i : nat, (i < length chunks)%nat ->
          exists id, Indexer.chunk_id E f (Z.of_nat i) = Ok id
                     /\ id ∈ ids (Indexer.index_document E f w).2)
    /\ recorded (Indexer.index_document E f w).2 f
         (Indexer.get_file_hash E data).
Proof.
  intros Hok.
  destruct (indexed_stores_all f w Hok)
    as (data & text & page_count & chunks & Hf & Ht & Hs & Hne & Hc & Hlen
        & Hacc & Hall).
  exists data, text, page_count, chunks. split_and!; try done.
  destruct (indexed_inversion f w Hok)
    as (data' & processed & _ & _ & _ & w1 & Hf' & _ & _ & _ & _ & _ & ->).
  rewrite (fetched_same w f data data' Hf Hf').
  eexists _, _. split_and!; [reflexivity | apply lookup_insert_eq | done].
Qed.

(** After a call that ended as indexed, a call for the same file in
    incremental mode skips it and changes nothing, from any world that has
    the same objects, a tracker file that parses and the same tracker
    entry for the file; the world the first call left is such a world. *)
Theorem indexed_then_skipped (f : string) (w w2 : World) :
  (Indexer.index_document E f w).1 = Indexer.Indexed ->
  FORCE_REINDEX E = false ->
  bucket w2 = bucket w ->
  tracker_file w2 = Stored (entries w2) ->
  entries w2 !! f = entries (Indexer.index_document E f w).2 !! f ->
  Indexer.index_document E f w2 = (Indexer.SkippedUnchanged, w2)
  /\ Indexer.index_document E f (Indexer.index_document E f w).2
     = (Indexer.SkippedUnchanged, (Indexer.index_document E f w).2).
Proof.
  intros Hok Hforce Hb Ht He.
  destruct (indexed_inversion f w Hok)
    as (data & processed & text & page_count & chunks & w1 & (objects & Hbw & Hf)
        & _ & _ & _ & _ & Hup & Hw').
  rewrite Hw' in *. clear Hw'.
  apply upload_footprint in Hup as (Hb1 & _).
  split.
  - apply (index_document_unchanged E w2 f objects data);
      [congruence | done | done |].
    exists (entries w2). unfold entries at 2 in He. simpl in He.
    rewrite lookup_insert_eq in He. eexists. by split_and!.
  - apply (index_document_unchanged E _ f objects data);
      [simpl; congruence | done | done |].
    eexists _, _. split_and!; [reflexivity | apply lookup_insert_eq | done].
Qed.

(** Indexing again does not multiply the records: once a call for [f]
    ended as indexed, a later call for [f] on the same objects, in any
    mode and whatever the fate of its requests, leaves the set of
    identifiers of the collection as it found it, as long as the records
    of the first call are still there. *)
Theorem reindexing_adds_no_identifier (f : string) (w w2 : World) :
  (Indexer.index_document E f w).1 = Indexer.Indexed ->
  bucket w2 = bucket w ->
  ids (Indexer.index_document E f w).2 ⊆ ids w2 ->
  ids (Indexer.index_document E f w2).2 = ids w2.
Proof.
  intros Hok Hb Hsub.
  destruct (indexed_stores_all f w Hok)
    as (data & text & page_count & chunks & Hf & Ht & Hs & _ & _ & _ & _ & Hall).
  assert (Hnew : forall r w3,
            Indexer.upload_chunks E f (Indexer.pdf_metadata f page_count) chunks w2
            = (r, w3) -> ids w3 = ids w2).
  { intros r w3 Hup.
    apply upload_footprint in Hup as (_ & _ & _ & Hmono & Hadded & _).
    apply set_eq. intros id. split; [| apply Hmono].
    intros [Hin | (i & Hi & Hid)]%Hadded; [done |].
    destruct (Hall i Hi) as (id' & Hid' & Hin). apply Hsub. congruence. }
  assert (Hsame : forall data2, fetched w2 f data2 -> data2 = data).
  { intros data2 (o2 & Hb2 & Hf2). destruct Hf as (o & Hbw & Hfw). congruence. }
  pose proof (index_document_run E f w2) as Hrun.
  destruct (Indexer.index_document E f w2) as [o w']. simpl in *.
  inversion Hrun; subst; try done;
    match goal with
    | H : fetched w2 f ?d |- _ => apply Hsame in H; subst d
    end;
    match goal with
    | H1 : Indexer.extract_text_from_pdf E data = Ok _ |- _ =>
        rewrite Ht in H1; inversion H1; subst
    end;
    match goal with
    | H1 : Indexer.split_text_into_chunks _ _ = Ok _ |- _ =>
        rewrite Hs in H1; inversion H1; subst
    end;
    match goal with
    | H : Indexer.upload_chunks _ _ _ _ _ = _ |- _ => by apply Hnew in H
    end.
Qed.

End AfterIndexing.

Section Pipeline.

Context (E : Env).

Lemma listed_object (objects : gmap string (list byte)) (f : string) :
  f ∈ map fst (map_to_list objects) -> is_Some (objects !! f).
Proof.
  intros ([g data] & -> & Hin)%list_elem_of_fmap.
  apply elem_of_map_to_list in Hin. by exists data.
Qed.


(** A run in incremental mode deletes nothing: every identifier of the
    collection is still there after it, and in either mode every file the
    tracker had an entry for still has one. *)
Theorem run_deletes_nothing (w : World) :
  (FORCE_REINDEX E = false -> ids w ⊆ ids (Indexer.index_all_documents E w))
  /\ (forall g, is_Some (entries w !! g) ->
        is_Some (entries (Indexer.index_all_documents E w) !! g)).
Proof.
  assert (Hentries : forall f w' g, is_Some (entries w' !! g) ->
            is_Some (entries (Indexer.index_document E f w').2 !! g)).
  { intros f w' g. apply (entries_kept E). }
  unfold Indexer.index_all_documents.
  destruct (bucket w) as [objects|]; [| done]. split.
  - intros ->.
    apply (index_documents_invariant E (fun w' => ids w ⊆ ids w')).
    + intros f w' _ Hsub.
      destruct (index_document_ids E f w') as (Hmono & _).
      set_solver.
    + unfold ids, Indexer.ensure_collection_exists.
      destruct (collection w) eqn:Hc; [by rewrite Hc | set_solver].
  - intros g Hg.
    apply (index_documents_invariant E (fun w' => is_Some (entries w' !! g))).
    + intros f w' _. apply Hentries.
    + unfold entries, Indexer.reset_collection, Indexer.ensure_collection_exists
        in *.
      destruct (FORCE_REINDEX E); [done |]. by destruct (collection w).
Qed.

Lemma not_unchanged (w : World) (f h : string)
    (processed : gmap string Entry) :
  loaded w processed ->
  FORCE_REINDEX E = true \/ ~ recorded w f h ->
  Indexer.unchanged E processed f h = false.
Proof.
  intros Hload Hnot.
  destruct (Indexer.unchanged E processed f h) eqn:Hu; [| done].
  apply unchanged_true in Hu as [Hforce (entry & He & Hh)].
  destruct Hnot as [? | Hnot]; [congruence |]. exfalso. apply Hnot.
  destruct Hload as [[_ ->] | Hst]; [by rewrite lookup_empty in He |].
  by exists processed, entry.
Qed.

(** An object whose name does not end in ".pdf", whatever the case of the
    letters, is skipped as unsupported once it was fetched and was not
    skipped as unchanged; the world is left as it was, so the file gets
    no tracker entry. *)
Theorem unsupported_file_is_skipped (f : string) (w : World)
    (data : list byte) :
  fetched w f data ->
  tracker_file w <> Corrupt ->
  FORCE_REINDEX E = true \/ ~ recorded w f (Indexer.get_file_hash E data) ->
  Py.endswith (Py.lower f) ".pdf" = false ->
  Indexer.index_document E f w = (Indexer.SkippedUnsupported, w).
Proof.
  intros (objects & Hb & Hf) Ht Hnot Hpdf.
  unfold Indexer.index_document, Indexer.index_document_try, mbind,
    Indexer.get_object, Indexer.load_processed_files, lift.
  rewrite Hb, Hf.
  destruct (tracker_file w) as [| | processed] eqn:Htf; [| done |].
  - rewrite (not_unchanged w f _ ∅) by (done || by left). by rewrite Hpdf.
  - rewrite (not_unchanged w f _ processed) by (done || by right).
    by rewrite Hpdf.
Qed.

(** When PyPDF2 cannot read the file the document ends as failed with the
    reader's error and the world is left as it was. *)
Theorem unreadable_pdf_fails_alone (f : string) (w : World)
    (data : list byte) (e : exn) :
  fetched w f data ->
  tracker_file w <> Corrupt ->
  FORCE_REINDEX E = true \/ ~ recorded w f (Indexer.get_file_hash E data) ->
  Py.endswith (Py.lower f) ".pdf" = true ->
  PdfReader E data = Raise e ->
  Indexer.index_document E f w = (Indexer.Failed e, w).
Proof.
  intros (objects & Hb & Hf) Ht Hnot Hpdf Hread.
  assert (Hx : Indexer.extract_text_from_pdf E data = Raise e)
    by (unfold Indexer.extract_text_from_pdf; by rewrite Hread).
  unfold Indexer.index_document, Indexer.index_document_try, mbind,
    Indexer.get_object, Indexer.load_processed_files, lift.
  rewrite Hb, Hf.
  destruct (tracker_file w) as [| | processed] eqn:Htf; [| done |].
  - rewrite (not_unchanged w f _ ∅) by (done || by left).
    by rewrite Hpdf, Hx.
  - rewrite (not_unchanged w f _ processed) by (done || by right).
    by rewrite Hpdf, Hx.
Qed.

End Pipeline.

(** ** What the records hold *)

Section Records.

Context (E : Env) (f : string) (metadata : json) (total : Z).

Lemma index_chunk_record (i : Z) (chunk : string) (pts : list PointStruct)
    (w : World) :
  match Indexer.index_chunk E f metadata total (i, chunk) pts w with
  | (Ok pts', w') =>
      exists id, Indexer.chunk_id E f i = Ok id
        /\ clock w' = S (clock w)
        /\ ((pts' = pts ++ [Trace.built E metadata total id chunk i (wall_clock E (clock w))]
             /\ upserts w' = upserts w)
            \/ (pts' = []
                /\ upserts w' = upserts w
                     ++ [pts ++ [Trace.built E metadata total id chunk i (wall_clock E (clock w))]]))
  | (Raise e, w') =>
      upserts w' = upserts w
      \/ exists id, Indexer.chunk_id E f i = Ok id
           /\ upserts w' = upserts w
                ++ [pts ++ [Trace.built E metadata total id chunk i (wall_clock E (clock w))]]
  end.
Proof.
  unfold Indexer.index_chunk, mbind, lift, time_time, tick, qdrant_upsert, ret.
  destruct (Indexer.chunk_id E f i) as [id | e]; [| by left].
  fold (Trace.built E metadata total id chunk i (wall_clock E (clock w))).
  set (p := Trace.built E metadata total id chunk i (wall_clock E (clock w))).
  destruct (100 <=? _); simpl.
  - destruct (collection w) as [c|];
      [destruct (upsert_accepted E _) |]; simpl; eauto 10.
  - exists id. split_and!; [done | done |]. by left.
Qed.

Lemma index_chunks_records (l : list string) :
  forall (j : nat) (pts : list PointStruct) (w : World) r w',
    for_each (Indexer.index_chunk E f metadata total)
             (imap (fun i a => (Z.of_nat (j + i), a)) l) pts w = (r, w') ->
    exists batches buffer new,
      upserts w' = upserts w ++ batches
      /\ concat batches ++ buffer = pts ++ new
      /\ Trace.expected E f metadata total l j (clock w) new
      /\ forall pts', r = Ok pts' -> buffer = pts'.
Proof.
  induction l as [|chunk l IH]; intros j pts w r w' Hrun.
  - simpl in Hrun. inversion Hrun; subst.
    exists [], pts, []. rewrite !app_nil_r. split_and!; try done;
      try (intros k p Hk; by rewrite lookup_nil in Hk);
      by intros pts' [= <-].
  - rewrite imap_cons, for_each_cons, Nat.add_0_r in Hrun.
    pose proof (index_chunk_record (Z.of_nat j) chunk pts w) as Hstep.
    destruct (Indexer.index_chunk E f metadata total (Z.of_nat j, chunk) pts w)
      as [[pts1 | e] w1].
    + rewrite (imap_ext _ (fun i a => (Z.of_nat (S j + i), a))) in Hrun
        by (intros; simpl; do 2 f_equal; lia).
      destruct Hstep as (id & Hid & Hclock & Hcase).
      destruct (IH (S j) pts1 w1 r w' Hrun)
        as (batches & buffer & new & Hu & Hcat & Hnew & Hr).
      set (p := Trace.built E metadata total id chunk (Z.of_nat j) (wall_clock E (clock w))) in *.
      assert (Hexp : Trace.expected E f metadata total (chunk :: l) j (clock w) (p :: new)).
      { intros [|k] q Hk; simpl in Hk.
        - inversion Hk; subst q. exists chunk, id.
          rewrite !Nat.add_0_r. by split_and!.
        - destruct (Hnew k q Hk) as (c & id' & Hl & Hid' & ->).
          exists c, id'. rewrite Hclock in *.
          replace (j + S k)%nat with (S j + k)%nat by lia.
          replace (clock w + S k)%nat with (S (clock w) + k)%nat by lia.
          by split_and!. }
      destruct Hcase as [[-> Hu1] | [-> Hu1]].
      * exists batches, buffer, (p :: new). split_and!; try done.
        -- by rewrite Hu, Hu1.
        -- by rewrite Hcat, <- app_assoc.
      * exists ((pts ++ [p]) :: batches), buffer, (p :: new).
        split_and!; try done.
        -- by rewrite Hu, Hu1, <- app_assoc.
        -- simpl. rewrite <- !app_assoc. simpl. simpl in Hcat. by rewrite Hcat.
    + inversion Hrun; subst.
      destruct Hstep as [Hu1 | (id & Hid & Hu1)].
      * exists [], pts, []. rewrite !app_nil_r. split_and!; try done;
          intros k p Hk; by rewrite lookup_nil in Hk.
      * set (p := Trace.built E metadata total id chunk (Z.of_nat j) (wall_clock E (clock w))) in *.
        exists [pts ++ [p]], [], [p]. simpl. rewrite !app_nil_r.
        split_and!; try done.
        intros [|k] q Hk; simpl in Hk; [| by rewrite lookup_nil in Hk].
        inversion Hk; subst q. exists chunk, id.
        rewrite !Nat.add_0_r. by split_and!.
Qed.

End Records.

Section SentRecords.

Context (E : Env) (f : string).

Lemma upload_chunks_records (metadata : json) (chunks : list string)
    (w : World) r w' :
  Indexer.upload_chunks E f metadata chunks w = (r, w') ->
  forall k p,
    concat (drop (length (upserts w)) (upserts w')) !! k = Some p ->
    exists chunk id,
      chunks !! k = Some chunk
      /\ Indexer.chunk_id E f (Z.of_nat k) = Ok id
      /\ p = Trace.built E metadata (Z.of_nat (length chunks)) id chunk
               (Z.of_nat k) (wall_clock E (clock w + k)).
Proof.
  unfold Indexer.upload_chunks, mbind, enumerate. intros Hrun.
  rewrite (imap_ext _ (fun i a => (Z.of_nat (0 + i), a))) in Hrun by done.
  destruct (for_each _ _ [] w) as [r1 w1] eqn:Hloop.
  apply index_chunks_records in Hloop
    as (batches & buffer & new & Hu & Hcat & Hnew & Hr).
  simpl in Hcat.
  assert (Hsent : forall sent, (exists rest, sent ++ rest = new) ->
            forall k p, sent !! k = Some p ->
              exists chunk id,
                chunks !! k = Some chunk
                /\ Indexer.chunk_id E f (Z.of_nat k) = Ok id
                /\ p = Trace.built E metadata (Z.of_nat (length chunks)) id
                         chunk (Z.of_nat k) (wall_clock E (clock w + k))).
  { intros sent [rest <-] k p Hk.
    apply (Hnew k p (lookup_app_l_Some _ _ _ _ Hk)). }
  destruct r1 as [pts | e].
  - rewrite (Hr pts eq_refl) in Hcat. destruct pts as [|p0 pts].
    + inversion Hrun; subst. rewrite Hu, drop_app_length.
      apply Hsent. by exists [].
    + assert (Hw' : upserts w' = upserts w1 ++ [p0 :: pts]).
      { unfold qdrant_upsert in Hrun.
        destruct (collection w1); [destruct (upsert_accepted E _) |];
          by inversion Hrun. }
      rewrite Hw', Hu, <- app_assoc, drop_app_length, concat_app. simpl.
      rewrite app_nil_r. apply Hsent. exists []. by rewrite app_nil_r.
  - inversion Hrun; subst. rewrite Hu, drop_app_length.
    apply Hsent. by exists buffer.
Qed.

End SentRecords.


Section EndToEnd.

Context (E : Env).

(* The records of the requests of a call, one by one. *)
Lemma requests_carry_chunks (f : string) (w : World)
    (data : list byte) (text : string) (page_count : Z)
    (chunks : list string) :
  fetched w f data ->
  Indexer.extract_text_from_pdf E data = Ok (text, page_count) ->
  Indexer.split_text_into_chunks text Indexer.CHUNK_SIZE = Ok chunks ->
  forall k p,
    concat (requests_of E f w) !! k = Some p ->
    exists chunk id,
      chunks !! k = Some chunk
      /\ Indexer.chunk_id E f (Z.of_nat k) = Ok id
      /\ p = record E f page_count (Z.of_nat (length chunks)) (Z.of_nat k)
               chunk id (wall_clock E (clock w + k)).
Proof.
  intros Hf Ht Hs k p. unfold requests_of.
  pose proof (index_document_run E f w) as Hrun.
  destruct (Indexer.index_document E f w) as [o w']. simpl in *.
  assert (Hnone : concat (drop (length (upserts w)) (upserts w)) !! k = Some p ->
            exists chunk id,
              chunks !! k = Some chunk
              /\ Indexer.chunk_id E f (Z.of_nat k) = Ok id
              /\ p = record E f page_count (Z.of_nat (length chunks)) (Z.of_nat k)
                       chunk id (wall_clock E (clock w + k))).
  { rewrite drop_all. simpl. by rewrite lookup_nil. }
  inversion Hrun; subst; try done;
    match goal with
    | H : fetched w f ?d |- _ => rewrite (fetched_same _ _ _ _ H Hf) in *
    end;
    match goal with
    | H1 : Indexer.extract_text_from_pdf E data = Ok _ |- _ =>
        rewrite Ht in H1; inversion H1; subst
    end;
    match goal with
    | H1 : Indexer.split_text_into_chunks _ _ = Ok _ |- _ =>
        rewrite Hs in H1; inversion H1; subst
    end;
    match goal with
    | H : Indexer.upload_chunks _ _ _ _ _ = _ |- _ =>
        apply (upload_chunks_records E f _ _ _ _ _ H)
    end.
Qed.

(** The requests of a call carry the chunks of the text, in order: the
    k-th record sent holds the k-th chunk as its text, the embedding of
    that chunk as its vector, the identifier of the pair (file, k), the
    metadata of the file, k as its chunk index, the number of chunks as
    its total and the reading of the clock at its turn; there are never
    more records than chunks. *)
Theorem sent_records_are_the_chunks (f : string) (w : World)
    (data : list byte) (text : string) (page_count : Z)
    (chunks : list string) :
  fetched w f data ->
  Indexer.extract_text_from_pdf E data = Ok (text, page_count) ->
  Indexer.split_text_into_chunks text Indexer.CHUNK_SIZE = Ok chunks ->
  (length (concat (requests_of E f w)) <= length chunks)%nat
  /\ forall k p,
       concat (requests_of E f w) !! k = Some p ->
       exists chunk id,
         chunks !! k = Some chunk
         /\ Indexer.chunk_id E f (Z.of_nat k) = Ok id
         /\ p = record E f page_count (Z.of_nat (length chunks)) (Z.of_nat k)
                  chunk id (wall_clock E (clock w + k)).
Proof.
  intros Hf Ht Hs.
  pose proof (requests_carry_chunks f w data text page_count chunks Hf Ht Hs)
    as Hrec.
  split; [| exact Hrec].
  destruct (decide (length (concat (requests_of E f w)) <= length chunks)%nat)
    as [| Hmore]; [done |]. exfalso.
  destruct (lookup_lt_is_Some_2 (concat (requests_of E f w)) (length chunks))
    as [p Hp]; [lia |].
  destruct (Hrec _ p Hp) as (chunk & _ & Hchunk & _).
  apply lookup_lt_Some in Hchunk. lia.
Qed.

(** What the retriever makes of a payload the indexer wrote. *)
Lemma record_payload_document (f : string) (page_count total i : Z)
    (chunk : string) (now : Q) (hid : Z) (s : Q) :
  Retriever.make_document E
    {| hit_id := hid; hit_score := s;
       hit_payload :=
         Some (Indexer.chunk_payload chunk (Indexer.pdf_metadata f page_count)
                 i total now) |}
  = Ok {| Retriever.text := chunk; Retriever.file_name := f;
          Retriever.score := s; Retriever.page_count := Some page_count;
          Retriever.chunk_index := Some i;
          Retriever.total_chunks := Some total |}.
Proof.
  unfold Retriever.make_document, Py.bind, Indexer.chunk_payload,
    Indexer.pdf_metadata, Py.get_or. simpl.
  repeat (rewrite lookup_insert_eq || rewrite lookup_insert_ne by done).
  simpl.
  repeat (rewrite lookup_insert_eq || rewrite lookup_insert_ne by done).
  reflexivity.
Qed.

(** The indexer and the retriever agree on the payload: a record sent by
    [index_document], found later by a search with any score, gives a
    document, never a dropped hit or a failed request; the document holds
    the chunk as its text, the name of the file, the page count of the
    PDF, the index of the chunk and the number of chunks. *)
Theorem sent_record_is_retrievable (f : string) (w : World)
    (data : list byte) (text : string) (page_count : Z)
    (chunks : list string) (k : nat) (p : PointStruct) (s : Q) :
  fetched w f data ->
  Indexer.extract_text_from_pdf E data = Ok (text, page_count) ->
  Indexer.split_text_into_chunks text Indexer.CHUNK_SIZE = Ok chunks ->
  concat (requests_of E f w) !! k = Some p ->
  exists chunk,
    chunks !! k = Some chunk
    /\ Retriever.make_document E
         {| hit_id := point_id p; hit_score := s;
            hit_payload := Some (point_payload p) |}
       = Ok {| Retriever.text := chunk; Retriever.file_name := f;
               Retriever.score := s; Retriever.page_count := Some page_count;
               Retriever.chunk_index := Some (Z.of_nat k);
               Retriever.total_chunks := Some (Z.of_nat (length chunks)) |}.
Proof.
  intros Hf Ht Hs Hk.
  destruct (requests_carry_chunks f w data text page_count chunks
              Hf Ht Hs k p Hk) as (chunk & id & Hc & _ & ->).
  exists chunk. split; [done |]. apply record_payload_document.
Qed.

End EndToEnd.

(** ** The batches of a document *)

Section Rejection.

Context (E : Env) (f : string).


Context (metadata : json) (total : Z).



End Rejection.

Section Batches.

Context (E : Env) (f : string).





End Batches.

(** ** The write of the tracker *)

Section TrackerWrite.

Context (E : Env) (f : string).

(** Every turn of the loop reads the clock once. *)
Lemma index_chunks_clock (metadata : json) (total : Z)
    (l : list (Z * string)) :
  forall (pts : list PointStruct) (w : World) pts' w',
    for_each (Indexer.index_chunk E f metadata total) l pts w = (Ok pts', w') ->
    clock w' = (clock w + length l)%nat.
Proof.
  induction l as [|[i chunk] l IH]; intros pts w pts' w' Hrun.
  - cbn in Hrun. unfold ret in Hrun. inversion Hrun; subst. simpl. lia.
  - rewrite for_each_cons in Hrun.
    pose proof (index_chunk_record E f metadata total i chunk pts w) as Hstep.
    destruct (Indexer.index_chunk E f metadata total (i, chunk) pts w)
      as [[pts1 | e] w1]; [| done].
    destruct Hstep as (_ & _ & Hclock & _).
    apply IH in Hrun. simpl. lia.
Qed.

Lemma upload_chunks_clock (metadata : json) (chunks : list string)
    (w w1 : World) :
  Indexer.upload_chunks E f metadata chunks w = (Ok tt, w1) ->
  clock w1 = (clock w + length chunks)%nat.
Proof.
  unfold Indexer.upload_chunks, mbind. intros Hrun.
  destruct (for_each _ _ [] w) as [[pts | e] w0] eqn:Hloop; [| done].
  apply index_chunks_clock in Hloop.
  unfold enumerate in Hloop. rewrite length_imap in Hloop.
  destruct pts as [|p pts]; [by inversion Hrun; subst |].
  unfold qdrant_upsert in Hrun.
  destruct (collection w0); [destruct (upsert_accepted E _) |];
    inversion Hrun; by subst.
Qed.

(** The tracker is written on success only, and only at the entry of the
    file that was indexed: a call that does not end as indexed leaves the
    tracker file as it was (a file that does not parse stays so); a call
    that ends as indexed writes the mapping it read with the entry of [f]
    set to the hash of the content and the time of the write, which is
    the reading of the clock that follows the readings made for the
    chunks, one per chunk, and is the last reading of the call. *)
Theorem tracker_written_on_success_only (w : World) :
  ((Indexer.index_document E f w).1 <> Indexer.Indexed ->
     tracker_file (Indexer.index_document E f w).2 = tracker_file w)
  /\ ((Indexer.index_document E f w).1 = Indexer.Indexed ->
        exists data text page_count chunks,
          fetched w f data
          /\ Indexer.extract_text_from_pdf E data = Ok (text, page_count)
          /\ Indexer.split_text_into_chunks text Indexer.CHUNK_SIZE = Ok chunks
          /\ tracker_file w <> Corrupt
          /\ clock (Indexer.index_document E f w).2
             = (clock w + length chunks + 1)%nat
          /\ tracker_file (Indexer.index_document E f w).2
             = Stored (<[f := {| hash := Indexer.get_file_hash E data;
                                 last_indexed :=
                                   wall_clock E (clock w + length chunks) |}]>
                         (entries w))
          /\ forall g, g <> f ->
               entries (Indexer.index_document E f w).2 !! g = entries w !! g).
Proof.
  pose proof (index_document_run E f w) as Hrun.
  destruct (Indexer.index_document E f w) as [o w']. simpl in *.
  inversion Hrun; subst; split; try done.
  - intros _.
    match goal with
    | H : Indexer.upload_chunks _ _ _ _ _ = _ |- _ =>
        by apply upload_footprint in H as (_ & Ht & _)
    end.
  - intros _. exists data, text, page_count, chunks.
    match goal with H : loaded w _ |- _ => rename H into Hload end.
    match goal with
    | H : Indexer.upload_chunks _ _ _ _ _ = _ |- _ =>
        apply upload_chunks_clock in H as Hclock
    end.
    rewrite (loaded_entries w processed Hload).
    unfold tick. simpl. rewrite Hclock.
    split_and!; try done.
    + destruct Hload as [[-> _] | ->]; done.
    + lia.
    + intros g Hg. unfold entries at 1. simpl. by rewrite lookup_insert_ne.
Qed.

End TrackerWrite.

Section Floats.

Lemma round_half_even_nonneg (n d : Z) :
  0 <= n -> 0 < d -> 0 <= Py.round_half_even n d.
Proof.
  intros Hn Hd. unfold Py.round_half_even.
  pose proof (Z.div_pos n d Hn Hd).
  repeat case_match; lia.
Qed.

Lemma double_of_fraction_nonneg (n d : positive) :
  (0 <= Py.double_of_fraction n d)%Q.
Proof.
  unfold Py.double_of_fraction. cbv zeta. rewrite Qred_correct.
  unfold Qle. cbn [Qnum Qden]. rewrite Z.mul_1_r. change (0 * _) with 0.
  apply Z.mul_nonneg_nonneg; [| apply Z.pow_nonneg; lia].
  apply round_half_even_nonneg.
  - apply Z.mul_nonneg_nonneg; [lia | apply Z.pow_nonneg; lia].
  - apply Z.mul_pos_pos; [lia | apply Z.pow_pos_nonneg; lia].
Qed.

(** Rounding to the nearest double keeps the sign. *)
Lemma round_double_sign (q : Q) :
  ((0 <= q)%Q -> (0 <= Py.round_double q)%Q)
  /\ ((q <= 0)%Q -> (Py.round_double q <= 0)%Q).
Proof.
  unfold Py.round_double. destruct q as [[|n|n] d]; cbn [Qnum Qden].
  - split; intros _; apply Qle_refl.
  - split; [intros _; apply double_of_fraction_nonneg |].
    unfold Qle. cbn [Qnum Qden]. lia.
  - split; [unfold Qle; cbn [Qnum Qden]; lia |].
    intros _. apply (Qopp_le_compat 0), double_of_fraction_nonneg.
Qed.

Lemma float_elapsed_sign (t0 t1 : Q) :
  ((t0 <= t1)%Q -> (0 <= Py.float_mul (Py.float_sub t1 t0) 1000)%Q)
  /\ ((t1 <= t0)%Q -> (Py.float_mul (Py.float_sub t1 t0) 1000 <= 0)%Q).
Proof.
  unfold Py.float_mul, Py.float_sub. split; intros Hle.
  - apply round_double_sign. apply Qmult_le_0_compat; [| done].
    apply round_double_sign.
    by apply (Qplus_le_r _ _ t0); ring_simplify.
  - apply round_double_sign.
    assert (H : (Py.round_double (t1 - t0) <= 0)%Q).
    { apply round_double_sign.
      by apply (Qplus_le_r _ _ t0); ring_simplify. }
    apply (Qmult_le_compat_r _ _ 1000) in H; [| done].
    by rewrite Qmult_0_l in H.
Qed.

End Floats.

Section Serving.

Context (E : Env).

Lemma assemble_footprint (hits : list ScoredPoint) :
  forall docs w,
    let w' := (for_each (Retriever.add_hit E) hits docs w).2 in
    bucket w' = bucket w /\ tracker_file w' = tracker_file w
    /\ collection w' = collection w /\ upserts w' = upserts w
    /\ clock w' = clock w.
Proof.
  induction hits as [|h hits IH]; intros docs w; [done |].
  rewrite for_each_cons, add_hit_cases.
  destruct (Retriever.make_document E h) as [d | []]; try done;
    match goal with
    | |- context [for_each _ hits ?d ?w0] =>
        destruct (IH d w0) as (? & ? & ? & ? & ?)
    end; by split_and!.
Qed.

Lemma assemble_fatal (before after : list ScoredPoint) (h : ScoredPoint)
    (e : exn) (docs : list Retriever.DocumentChunk) (w : World) :
  Forall (benign E) before ->
  Retriever.make_document E h = Raise e ->
  (forall k, e <> KeyError k) ->
  for_each (Retriever.add_hit E) (before ++ h :: after) docs w
  = (Raise e, set_logged (logged w ++ omap (warning_of E) before) w).
Proof.
  intros Hben Hh He.
  rewrite for_each_app, (assemble_benign E before Hben), for_each_cons,
    add_hit_cases, Hh.
  destruct e; try done. by destruct (He key).
Qed.

(** Serving a request writes nothing but the log: the bucket, the tracker
    file, the collection and the list of upsert requests are as before;
    the clock is read once or twice. *)
Theorem retrieve_docs_is_read_only (req : Retriever.QueryRequest) (w : World) :
  bucket (Retriever.retrieve_docs E req w).2 = bucket w
  /\ tracker_file (Retriever.retrieve_docs E req w).2 = tracker_file w
  /\ collection (Retriever.retrieve_docs E req w).2 = collection w
  /\ upserts (Retriever.retrieve_docs E req w).2 = upserts w
  /\ (clock w < clock (Retriever.retrieve_docs E req w).2 <= clock w + 2)%nat.
Proof.
  unfold Retriever.retrieve_docs, tick, Retriever.retrieve_docs_try, mbind,
    Retriever.assemble_documents, time_time, tick, ret.
  cbv beta iota zeta.
  destruct (qdrant_search E _ _ _ _) as [hits | e].
  - pose proof (assemble_footprint hits [] (set_clock (S (clock w)) w)) as Hfoot.
    destruct (for_each (Retriever.add_hit E) hits [] _) as [[docs | e] w1];
      simpl in Hfoot; destruct Hfoot as (Hb & Ht & Hcl & Hu & Hc);
      [| destruct e]; simpl; rewrite ?Hb, ?Ht, ?Hcl, ?Hu, ?Hc;
      split_and!; try done; lia.
  - destruct e; simpl; split_and!; try done; lia.
Qed.

(** A failed search is never answered with an empty result: the request
    ends with the status 500, the error is logged, and the detail says
    "Qdrant search error" exactly when Qdrant answered with an unexpected
    response. *)
Theorem search_failure_is_a_server_error (req : Retriever.QueryRequest)
    (w : World) (e : exn) :
  qdrant_search E (collection w) (embed E (Retriever.query req))
    (Retriever.limit req) (Retriever.threshold req) = Raise e ->
  Retriever.retrieve_docs E req w
  = (inl (server_error e),
     set_logged (logged w ++ [LogError e]) (tick E w).2).
Proof.
  intros Hsearch.
  unfold Retriever.retrieve_docs, tick, Retriever.retrieve_docs_try, mbind,
    server_error.
  simpl. rewrite Hsearch. by destruct e.
Qed.

(** The first hit that raises anything but a [KeyError] ends the request:
    the hits before it that lacked a key have left their warnings, the
    error is logged after them, the status is 500 and no document is
    returned, whatever the hits after it hold. *)
Theorem malformed_hit_fails_the_request (req : Retriever.QueryRequest)
    (w : World) (before after : list ScoredPoint) (h : ScoredPoint) (e : exn) :
  qdrant_search E (collection w) (embed E (Retriever.query req))
    (Retriever.limit req) (Retriever.threshold req)
  = Ok (before ++ h :: after) ->
  Forall (benign E) before ->
  Retriever.make_document E h = Raise e ->
  (forall k, e <> KeyError k) ->
  (Retriever.retrieve_docs E req w).1 = inl (server_error e)
  /\ logged (Retriever.retrieve_docs E req w).2
     = logged w ++ omap (warning_of E) before ++ [LogError e].
Proof.
  intros Hsearch Hben Hh He.
  unfold Retriever.retrieve_docs, tick, Retriever.retrieve_docs_try, mbind,
    Retriever.assemble_documents, server_error.
  simpl. rewrite Hsearch, (assemble_fatal before after h e [] _ Hben Hh He).
  destruct e; simpl; by rewrite <- ?app_assoc.
Qed.

(** Every hit is accounted for in a response: the documents are those of
    the hits that have a text, in the order of the hits; each of the other
    hits has left one warning in the log and nothing else was logged; and
    the response gives the query back. *)
Theorem every_hit_is_returned_or_logged (req : Retriever.QueryRequest)
    (w : World) (resp : Retriever.QueryResponse) :
  (Retriever.retrieve_docs E req w).1 = inr resp ->
  exists hits,
    qdrant_search E (collection w) (embed E (Retriever.query req))
      (Retriever.limit req) (Retriever.threshold req) = Ok hits
    /\ Retriever.documents resp = omap (document_of E) hits
    /\ logged (Retriever.retrieve_docs E req w).2
       = logged w ++ omap (warning_of E) hits
    /\ (length (Retriever.documents resp)
        + length (omap (warning_of E) hits))%nat = length hits
    /\ Retriever.response_query resp = Retriever.query req.
Proof.
  intros Hresp.
  destruct (retrieve_docs_inr E req w resp Hresp) as (hits & Hsearch & Hben & Hdocs).
  destruct (retrieve_docs_benign E req w hits Hsearch Hben)
    as (resp' & w' & Hrun & _ & Hq & Hlog).
  rewrite Hrun in *. simpl in *. inversion Hresp; subst resp'.
  exists hits. split_and!; try done.
  rewrite Hdocs. clear -Hben.
  induction Hben as [|h hits Hh _ IH]; [done |].
  cbn. unfold benign, document_of, warning_of in *.
  destruct (Retriever.make_document E h) as [d | []]; try done; cbn; lia.
Qed.

(** The time a response reports is computed from the two readings of the
    clock as Python computes it, in doubles: the difference rounded, then
    the product with 1000 rounded. Its sign is that of the difference of
    the readings: not negative when the clock does not go back. *)
Theorem response_reports_elapsed_time (req : Retriever.QueryRequest)
    (w : World) (resp : Retriever.QueryResponse) :
  (Retriever.retrieve_docs E req w).1 = inr resp ->
  Retriever.took_ms resp
  = Py.float_mul
      (Py.float_sub (wall_clock E (S (clock w))) (wall_clock E (clock w)))
      1000
  /\ clock (Retriever.retrieve_docs E req w).2 = (clock w + 2)%nat
  /\ ((wall_clock E (clock w) <= wall_clock E (S (clock w)))%Q ->
        (0 <= Retriever.took_ms resp)%Q)
  /\ ((wall_clock E (S (clock w)) <= wall_clock E (clock w))%Q ->
        (Retriever.took_ms resp <= 0)%Q).
Proof.
  intros Hresp.
  destruct (retrieve_docs_inr E req w resp Hresp) as (hits & Hsearch & Hben & _).
  revert Hresp.
  unfold Retriever.retrieve_docs, tick, Retriever.retrieve_docs_try, mbind,
    Retriever.assemble_documents, time_time, tick, ret.
  simpl. rewrite Hsearch, (assemble_benign E hits Hben). simpl.
  intros [= <-]. cbn [Retriever.took_ms].
  split_and!; [done | lia | apply float_elapsed_sign | apply float_elapsed_sign].
Qed.

End Serving.

(** ** More on the chunker and on the extraction of the text *)

Section ChunkerEdges.

(** With a chunk size of zero the chunker raises on every text that is
    not empty; with a negative chunk size it returns no chunk, so the
    text is lost without an error. *)
Theorem chunk_size_not_positive (T : string) :
  T <> EmptyString ->
  Indexer.split_text_into_chunks T 0 = Raise ValueError
  /\ forall C, C < 0 -> Indexer.split_text_into_chunks T C = Ok [].
Proof.
  intros HT. unfold Indexer.split_text_into_chunks.
  destruct T as [|a T]; [done |]. split; [reflexivity |].
  intros C HC. unfold Py.range, Py.range_len.
  destruct (Z.eqb_spec C 0); [lia |].
  destruct (Z.ltb_spec 0 C); [lia |].
  destruct (Z.ltb_spec (len (String a T)) 0); [unfold len in *; lia |].
  reflexivity.
Qed.

(** For a chunk size of at least one no chunk is empty or longer than the
    chunk size, and there is no chunk only when the text is empty. *)
Theorem chunks_are_never_empty (T : string) (C : Z) (chunks : list string) :
  1 <= C ->
  Indexer.split_text_into_chunks T C = Ok chunks ->
  Forall (fun c => 1 <= len c <= C) chunks
  /\ (chunks = [] <-> T = EmptyString).
Proof.
  intros HC Hsplit. destruct (decide (T = EmptyString)) as [-> | HT].
  { simpl in Hsplit. inversion Hsplit. by split. }
  rewrite (split_nonempty T C HC HT) in Hsplit. inversion Hsplit as [Hchunks].
  assert (HL : 1 <= len T).
  { unfold len. destruct T; [done | simpl; lia]. }
  assert (Hn : ceil_div (len T) C = (len T - 1) / C + 1).
  { unfold ceil_div. rewrite <- Z.div_add by lia. f_equal. lia. }
  assert (Hq : 0 <= (len T - 1) / C) by (apply Z.div_pos; lia).
  assert (Hlo : C * ((len T - 1) / C) <= len T - 1)
    by (apply Z.mul_div_le; lia).
  split.
  - apply Forall_forall. intros c [k [-> Hk]]%list_elem_of_fmap.
    apply elem_of_seq in Hk. unfold len in *.
    rewrite <- (chars_length (substring _ _ _)), chars_substring,
      length_take, length_drop, chars_length.
    rewrite Hn in Hk. nia.
  - split; [| done]. intros Hnil. exfalso.
    apply (f_equal length) in Hnil. rewrite length_map, length_seq in Hnil.
    simpl in Hnil. lia.
Qed.

End ChunkerEdges.

Section Extraction.

Lemma lstrip_first (s : string) (c : ascii) :
  first_char (Py.lstrip s) = Some c -> Py.isspace c = false.
Proof.
  unfold first_char. induction s as [|a s IH]; simpl; [done |].
  destruct (Py.isspace a) eqn:Ha; [done |]. simpl. by intros [= <-].
Qed.

Lemma rstrip_first (s : string) (c : ascii) :
  first_char (Py.rstrip s) = Some c -> first_char s = Some c.
Proof.
  unfold first_char. destruct s as [|a s]; simpl; [done |].
  destruct (Py.rstrip s); [destruct (Py.isspace a) |]; done.
Qed.

Lemma rstrip_last (s : string) (c : ascii) :
  last_char (Py.rstrip s) = Some c -> Py.isspace c = false.
Proof.
  unfold last_char. induction s as [|a s IH]; simpl; [done |].
  destruct (Py.rstrip s) as [|b r].
  - destruct (Py.isspace a) eqn:Ha; simpl; [done | by intros [= <-]].
  - simpl in *. done.
Qed.

Lemma blank_lstrip (s : string) : blank s -> Py.lstrip s = EmptyString.
Proof.
  unfold blank. induction s as [|a s IH]; simpl; [done |].
  intros [Ha Hs]%Forall_cons. rewrite Ha. by apply IH.
Qed.

Lemma blank_append (s t : string) :
  blank s -> blank t -> blank (String.append s t).
Proof.
  unfold blank. rewrite chars_append. intros. by apply Forall_app.
Qed.

Lemma blank_pages (pages : list string) (acc : string) :
  blank acc -> Forall blank pages ->
  blank (foldl (fun text page_text =>
                  match page_text with
                  | EmptyString => text
                  | _ => String.append text (String.append page_text " ")
                  end) acc pages).
Proof.
  intros Hacc Hblank. revert acc Hacc.
  induction Hblank as [|page pages Hp _ IH]; intros acc Hacc; [done |].
  simpl. apply IH. destruct page; [done |].
  apply blank_append; [done |]. apply blank_append; [done |].
  by repeat constructor.
Qed.

Context (E : Env).

(** The text [extract_text_from_pdf] returns never starts or ends with
    white space; it is empty when every page gives white space only or
    nothing; the page count is the number of pages, with or without text. *)
Theorem extracted_text_is_stripped (data : list byte) (text : string)
    (page_count : Z) :
  Indexer.extract_text_from_pdf E data = Ok (text, page_count) ->
  exists pages,
    PdfReader E data = Ok pages
    /\ page_count = Z.of_nat (length pages)
    /\ (forall c, first_char text = Some c -> Py.isspace c = false)
    /\ (forall c, last_char text = Some c -> Py.isspace c = false)
    /\ (Forall blank pages -> text = EmptyString).
Proof.
  unfold Indexer.extract_text_from_pdf, Py.bind.
  destruct (PdfReader E data) as [pages | e]; [| done].
  intros [= <- <-]. exists pages. split_and!; try done.
  - intros c Hc. apply rstrip_first in Hc. by apply lstrip_first in Hc.
  - intros c Hc. by apply rstrip_last in Hc.
  - intros Hblank. unfold Py.strip. rewrite blank_lstrip; [done |].
    apply blank_pages; [constructor | done].
Qed.

(** A PDF whose pages give no text, or white space only, is skipped as
    empty and leaves the world as it was. *)
Theorem blank_pdf_is_skipped (f : string) (w : World) (data : list byte)
    (pages : list string) :
  fetched w f data ->
  tracker_file w <> Corrupt ->
  FORCE_REINDEX E = true \/ ~ recorded w f (Indexer.get_file_hash E data) ->
  Py.endswith (Py.lower f) ".pdf" = true ->
  PdfReader E data = Ok pages ->
  Forall blank pages ->
  Indexer.index_document E f w = (Indexer.SkippedEmpty, w).
Proof.
  intros (objects & Hb & Hf) Ht Hnot Hpdf Hread Hblank.
  assert (Hx : Indexer.extract_text_from_pdf E data
               = Ok (EmptyString, Z.of_nat (length pages))).
  { unfold Indexer.extract_text_from_pdf. rewrite Hread. simpl.
    unfold Py.strip. rewrite blank_lstrip; [done |].
    apply blank_pages; [constructor | done]. }
  unfold Indexer.index_document, Indexer.index_document_try, mbind,
    Indexer.get_object, Indexer.load_processed_files, lift.
  rewrite Hb, Hf.
  destruct (tracker_file w) as [| | processed] eqn:Htf; [| done |].
  - rewrite (not_unchanged E w f _ ∅) by (done || by left).
    by rewrite Hpdf, Hx.
  - rewrite (not_unchanged E w f _ processed) by (done || by right).
    by rewrite Hpdf, Hx.
Qed.

End Extraction.

(** ** The text hashed for a chunk *)

Section ChunkKey.

Lemma decode_encode_char (c : ascii) (rest : list byte) :
  decode_char (Py.encode_char c ++ rest) = Some (c, rest).
Proof.
  destruct c as [[] [] [] [] [] [] [] []]; reflexivity.
Qed.

Lemma encode_inj (s t : string) : Py.encode s = Py.encode t -> s = t.
Proof.
  revert t. induction s as [|c s IH]; intros [|d t] H; simpl in H.
  - done.
  - apply (f_equal decode_char) in H.
    by rewrite decode_encode_char in H.
  - apply (f_equal decode_char) in H.
    by rewrite decode_encode_char in H.
  - apply (f_equal decode_char) in H.
    rewrite !decode_encode_char in H. inversion H; subst.
    f_equal. by apply IH.
Qed.

Lemma digits_no_dash (d : Decimal.uint) :
  "-"%char ∉ list_ascii_of_string (NilEmpty.string_of_uint d).
Proof.
  induction d; simpl; [by apply not_elem_of_nil | ..];
    (apply not_elem_of_cons; split; [discriminate | done]).
Qed.

Lemma str_of_int_no_dash (i : Z) :
  0 <= i -> "-"%char ∉ list_ascii_of_string (Py.str_of_int i).
Proof.
  intros Hi. unfold Py.str_of_int.
  destruct i as [|p|p]; [| | lia]; simpl.
  - apply not_elem_of_cons; split; [discriminate | apply not_elem_of_nil].
  - unfold NilZero.string_of_uint.
    destruct (Pos.to_uint p) eqn:Hp; [| apply digits_no_dash ..].
    apply not_elem_of_cons; split; [discriminate | apply not_elem_of_nil].
Qed.

Lemma str_of_int_inj (i j : Z) : Py.str_of_int i = Py.str_of_int j -> i = j.
Proof.
  assert (Hnil : forall z, Z.to_int z <> Decimal.Pos Decimal.Nil
                           /\ Z.to_int z <> Decimal.Neg Decimal.Nil).
  { intros [|p|p]; simpl; split; try discriminate;
      intros [= H]; by apply Stdlib.Numbers.DecimalPos.Unsigned.to_uint_nonnil in H. }
  unfold Py.str_of_int. intros H.
  apply (f_equal NilZero.int_of_string) in H.
  rewrite !NilZero.isi in H by apply Hnil.
  inversion H as [H']. by apply Stdlib.Numbers.DecimalZ.to_int_inj in H'.
Qed.

Lemma split_at_last {A} (x : A) (l1 l2 r1 r2 : list A) :
  x ∉ r1 -> x ∉ r2 -> l1 ++ x :: r1 = l2 ++ x :: r2 -> l1 = l2 /\ r1 = r2.
Proof.
  intros H1 H2. revert l2.
  induction l1 as [|a l1 IH]; intros [|b l2] H; simpl in H.
  - by inversion H.
  - inversion H; subst. exfalso. apply H1. set_solver.
  - inversion H; subst. exfalso. apply H2. set_solver.
  - inversion H; subst. destruct (IH l2) as [-> ->]; done.
Qed.

(** The bytes hashed for a chunk determine the file name and the index of
    the chunk: two chunks give md5 the same input only when they are the
    same chunk of the same file. *)
Theorem chunk_key_determines_file_and_index (f1 f2 : string) (i1 i2 : Z) :
  0 <= i1 -> 0 <= i2 ->
  Py.encode (chunk_key f1 i1) = Py.encode (chunk_key f2 i2)
  <-> f1 = f2 /\ i1 = i2.
Proof.
  intros H1 H2. split; [| by intros [-> ->]].
  intros H%encode_inj. unfold chunk_key in H.
  apply (f_equal list_ascii_of_string) in H.
  rewrite !chars_append in H. simpl in H.
  apply split_at_last in H; try by apply str_of_int_no_dash.
  destruct H as [Hf Hi]. split; [by apply chars_inj |].
  by apply str_of_int_inj, chars_inj.
Qed.

End ChunkKey.

(** ** A run over a bucket that is up to date *)

Section UpToDate.

Context (E : Env).

Lemma index_documents_fixed (fs : list string) (w : World) :
  (forall f, f ∈ fs -> (Indexer.index_document E f w).2 = w) ->
  Indexer.index_documents E fs w = w.
Proof.
  unfold Indexer.index_documents.
  induction fs as [|f fs IH]; intros Hfix; [done |].
  simpl. rewrite (Hfix f) by by left. apply IH.
  intros g Hg. apply Hfix. by right.
Qed.

(** In incremental mode a run over a bucket whose objects are all
    recorded in the tracker with the hash of their present content does
    nothing but make sure that the collection exists: no request is sent,
    the tracker is not written, and a second run changes nothing at all. *)
Theorem up_to_date_run_changes_nothing (w : World)
    (objects : gmap string (list byte)) :
  FORCE_REINDEX E = false ->
  bucket w = Some objects ->
  (forall f data, objects !! f = Some data ->
     recorded w f (Indexer.get_file_hash E data)) ->
  Indexer.index_all_documents E w = Indexer.ensure_collection_exists w
  /\ Indexer.index_all_documents E (Indexer.index_all_documents E w)
     = Indexer.index_all_documents E w.
Proof.
  intros Hforce Hb Hrec.
  assert (Hrun : forall w0, bucket w0 = Some objects ->
            (forall f data, objects !! f = Some data ->
               recorded w0 f (Indexer.get_file_hash E data)) ->
            Indexer.index_all_documents E w0
            = Indexer.ensure_collection_exists w0).
  { intros w0 Hb0 Hrec0. unfold Indexer.index_all_documents.
    rewrite Hb0, Hforce.
    apply index_documents_fixed. intros f Hf.
    apply listed_object in Hf as [data Hdata].
    rewrite (index_document_unchanged E _ f objects data); try done.
    - unfold Indexer.ensure_collection_exists. by destruct (collection w0).
    - destruct (Hrec0 f data Hdata) as (processed & entry & Ht & He).
      exists processed, entry. split; [| done].
      unfold Indexer.ensure_collection_exists. by destruct (collection w0). }
  rewrite (Hrun w Hb Hrec). split; [done |].
  rewrite Hrun.
  - unfold Indexer.ensure_collection_exists.
    destruct (collection w) eqn:Hc; [by rewrite Hc | done].
  - unfold Indexer.ensure_collection_exists. by destruct (collection w).
  - intros f data Hdata.
    destruct (Hrec f data Hdata) as (processed & entry & Ht & He).
    exists processed, entry. split; [| done].
    unfold Indexer.ensure_collection_exists. by destruct (collection w).
Qed.

End UpToDate.

(** ** The properties above on sample worlds *)

Lemma fetched_object (w : World) (objects : gmap string (list byte))
    (f : string) (data : list byte) :
  bucket w = Some objects -> objects !! f = Some data -> fetched w f data.
Proof. intros Hb Hf. by exists objects. Qed.



Lemma indexed_means_all_chunks_stored_witness :
  exists data text page_count chunks,
    fetched (Sample.world Sample.library Missing (Some ∅)) "letter.pdf" data
    /\ Indexer.extract_text_from_pdf (Sample.env false []) data
       = Ok (text, page_count)
    /\ Indexer.split_text_into_chunks text Indexer.CHUNK_SIZE = Ok chunks
    /\ chunks <> []
    /\ is_Some (collection (Sample.world Sample.library Missing (Some ∅)))
    /\ length (concat (requests_of (Sample.env false []) "letter.pdf"
                         (Sample.world Sample.library Missing (Some ∅))))
       = length chunks
    /\ (forall k,
          (k < length (requests_of (Sample.env false []) "letter.pdf"
                         (Sample.world Sample.library Missing (Some ∅))))%nat ->
          upsert_accepted (Sample.env false [])
            (length (upserts (Sample.world Sample.library Missing (Some ∅))) + k)
          = true)
    /\ (forall i : nat, (i < length chunks)%nat ->
          exists id,
            Indexer.chunk_id (Sample.env false []) "letter.pdf" (Z.of_nat i)
            = Ok id
            /\ id ∈ ids (Indexer.index_document (Sample.env false [])
                           "letter.pdf"
                           (Sample.world Sample.library Missing (Some ∅))).2)
    /\ recorded
         (Indexer.index_document (Sample.env false []) "letter.pdf"
            (Sample.world Sample.library Missing (Some ∅))).2
         "letter.pdf" (Indexer.get_file_hash (Sample.env false []) data).
Proof.
  apply (indexed_means_all_chunks_stored (Sample.env false []) "letter.pdf"
           (Sample.world Sample.library Missing (Some ∅))).
  by_vm.
Defined.

Lemma indexed_then_skipped_witness :
  Indexer.index_document (Sample.env false []) "letter.pdf"
    (set_collection None
       (Indexer.index_document (Sample.env false []) "letter.pdf"
          (Sample.world Sample.library Missing (Some ∅))).2)
  = (Indexer.SkippedUnchanged,
     set_collection None
       (Indexer.index_document (Sample.env false []) "letter.pdf"
          (Sample.world Sample.library Missing (Some ∅))).2)
  /\ Indexer.index_document (Sample.env false []) "letter.pdf"
       (Indexer.index_document (Sample.env false []) "letter.pdf"
          (Sample.world Sample.library Missing (Some ∅))).2
     = (Indexer.SkippedUnchanged,
        (Indexer.index_document (Sample.env false []) "letter.pdf"
           (Sample.world Sample.library Missing (Some ∅))).2).
Proof.
  apply (indexed_then_skipped (Sample.env false []) "letter.pdf"
           (Sample.world Sample.library Missing (Some ∅))).
  - by_vm.
  - reflexivity.
  - by_vm.
  - by_vm.
  - by_vm.
Defined.

Lemma reindexing_adds_no_identifier_witness :
  ids (Indexer.index_document (Sample.env true [1%nat]) "letter.pdf"
         (Indexer.index_document (Sample.env true [1%nat]) "letter.pdf"
            (Sample.world Sample.library Missing (Some ∅))).2).2
  = ids (Indexer.index_document (Sample.env true [1%nat]) "letter.pdf"
           (Sample.world Sample.library Missing (Some ∅))).2.
Proof.
  apply (reindexing_adds_no_identifier (Sample.env true [1%nat]) "letter.pdf"
           (Sample.world Sample.library Missing (Some ∅))).
  - by_vm.
  - by_vm.
  - done.
Defined.


Lemma unsupported_file_is_skipped_witness :
  Indexer.index_document (Sample.env true []) "notes.txt" Sample.fresh_world
  = (Indexer.SkippedUnsupported, Sample.fresh_world).
Proof.
  apply (unsupported_file_is_skipped (Sample.env true []) "notes.txt"
           Sample.fresh_world (Sample.bytes_of "hello")).
  - apply (fetched_object _ Sample.objects); [reflexivity | by_vm].
  - discriminate.
  - by left.
  - by_vm.
Defined.

Lemma unreadable_pdf_fails_alone_witness :
  Indexer.index_document (Sample.env false []) "scan.pdf"
    (Sample.world Sample.damaged Missing (Some ∅))
  = (Indexer.Failed PdfReadError, Sample.world Sample.damaged Missing (Some ∅)).
Proof.
  apply (unreadable_pdf_fails_alone (Sample.env false []) "scan.pdf"
           (Sample.world Sample.damaged Missing (Some ∅)) []).
  - apply (fetched_object _ Sample.damaged); [reflexivity | by_vm].
  - discriminate.
  - right. intros H%recorded_as_true. discriminate H.
  - by_vm.
  - reflexivity.
Defined.

Lemma sent_records_are_the_chunks_witness :
  (length (concat (requests_of (Sample.env false []) "report.pdf"
                     (Sample.world Sample.objects Missing (Some ∅))))
   <= 3)%nat
  /\ exists chunk id,
       [Sample.text_of_length 500; Sample.text_of_length 500;
        Sample.text_of_length 50] !! 2%nat = Some chunk
       /\ Indexer.chunk_id (Sample.env false []) "report.pdf" 2 = Ok id
       /\ record (Sample.env false []) "report.pdf" 1 3 2
            (Sample.text_of_length 50)
            (Sample.id_of
               (Indexer.chunk_id (Sample.env false []) "report.pdf" 2))
            (wall_clock (Sample.env false []) 2)
          = record (Sample.env false []) "report.pdf" 1 3 2 chunk id
              (wall_clock (Sample.env false []) 2).
Proof.
  destruct (sent_records_are_the_chunks (Sample.env false []) "report.pdf"
              (Sample.world Sample.objects Missing (Some ∅))
              (Sample.bytes_of (Sample.text_of_length 1050))
              (Sample.text_of_length 1050) 1
              [Sample.text_of_length 500; Sample.text_of_length 500;
               Sample.text_of_length 50]) as [Hlen Hrec].
  - apply (fetched_object _ Sample.objects); [reflexivity | by_vm].
  - by_vm.
  - by_vm.
  - split; [exact Hlen |].
    apply (Hrec 2%nat
             (record (Sample.env false []) "report.pdf" 1 3 2
                (Sample.text_of_length 50)
                (Sample.id_of
                   (Indexer.chunk_id (Sample.env false []) "report.pdf" 2))
                (wall_clock (Sample.env false []) 2))).
    by_vm.
Defined.

Lemma sent_record_is_retrievable_witness :
  exists chunk,
    [Sample.text_of_length 500; Sample.text_of_length 500;
     Sample.text_of_length 50] !! 2%nat = Some chunk
    /\ Retriever.make_document (Sample.env false [])
         {| hit_id := Sample.id_of
                        (Indexer.chunk_id (Sample.env false []) "report.pdf" 2);
            hit_score := (1 # 2)%Q;
            hit_payload :=
              Some (Indexer.chunk_payload (Sample.text_of_length 50)
                      (Indexer.pdf_metadata "report.pdf" 1) 2 3
                      (wall_clock (Sample.env false []) 2)) |}
       = Ok {| Retriever.text := chunk; Retriever.file_name := "report.pdf";
               Retriever.score := (1 # 2)%Q;
               Retriever.page_count := Some 1;
               Retriever.chunk_index := Some 2;
               Retriever.total_chunks := Some 3 |}.
Proof.
  apply (sent_record_is_retrievable (Sample.env false []) "report.pdf"
           (Sample.world Sample.objects Missing (Some ∅))
           (Sample.bytes_of (Sample.text_of_length 1050))
           (Sample.text_of_length 1050) 1
           [Sample.text_of_length 500; Sample.text_of_length 500;
            Sample.text_of_length 50] 2%nat
           (record (Sample.env false []) "report.pdf" 1 3 2
              (Sample.text_of_length 50)
              (Sample.id_of
                 (Indexer.chunk_id (Sample.env false []) "report.pdf" 2))
              (wall_clock (Sample.env false []) 2))
           (1 # 2)%Q).
  - apply (fetched_object _ Sample.objects); [reflexivity | by_vm].
  - by_vm.
  - by_vm.
  - by_vm.
Defined.

Lemma search_failure_is_a_server_error_witness :
  Retriever.retrieve_docs (Sample.env false []) Sample.request
    Sample.fresh_world
  = (inl (server_error UnexpectedResponse),
     set_logged (logged Sample.fresh_world ++ [LogError UnexpectedResponse])
       (tick (Sample.env false []) Sample.fresh_world).2).
Proof.
  apply (search_failure_is_a_server_error (Sample.env false []) Sample.request
           Sample.fresh_world UnexpectedResponse).
  reflexivity.
Defined.

Lemma malformed_hit_fails_the_request_witness :
  (Retriever.retrieve_docs (Sample.env false []) Sample.request
     (Sample.serving Sample.mixed)).1
  = inl (server_error AttributeError)
  /\ logged (Retriever.retrieve_docs (Sample.env false []) Sample.request
               (Sample.serving Sample.mixed)).2
     = logged (Sample.serving Sample.mixed)
       ++ omap (warning_of (Sample.env false []))
            [Sample.hit 3 [(97 # 100)%Q; 0%Q] (Sample.without_text "memo.pdf")]
       ++ [LogError AttributeError].
Proof.
  apply (malformed_hit_fails_the_request (Sample.env false []) Sample.request
           (Sample.serving Sample.mixed)
           [Sample.hit 3 [(97 # 100)%Q; 0%Q] (Sample.without_text "memo.pdf")]
           [Sample.hit 1 [(81 # 100)%Q; 0%Q]
              (Sample.full_payload "revenue grew" "report.pdf" 0 2)]
           (Sample.hit 5 [(95 # 100)%Q; 0%Q]
              (Sample.metadata_not_a_mapping "revenue fell"))
           AttributeError).
  - by_vm.
  - repeat constructor.
  - by_vm.
  - discriminate.
Defined.

Lemma every_hit_is_returned_or_logged_witness :
  exists hits,
    qdrant_search (Sample.env false [])
      (collection (Sample.serving Sample.answers))
      (embed (Sample.env false []) (Retriever.query Sample.request))
      (Retriever.limit Sample.request) (Retriever.threshold Sample.request)
    = Ok hits
    /\ Retriever.documents
         (Sample.response_of
            (Retriever.retrieve_docs (Sample.env false []) Sample.request
               (Sample.serving Sample.answers)).1)
       = omap (document_of (Sample.env false [])) hits
    /\ logged (Retriever.retrieve_docs (Sample.env false []) Sample.request
                 (Sample.serving Sample.answers)).2
       = logged (Sample.serving Sample.answers)
         ++ omap (warning_of (Sample.env false [])) hits
    /\ (length (Retriever.documents
                  (Sample.response_of
                     (Retriever.retrieve_docs (Sample.env false [])
                        Sample.request (Sample.serving Sample.answers)).1))
        + length (omap (warning_of (Sample.env false [])) hits))%nat
       = length hits
    /\ Retriever.response_query
         (Sample.response_of
            (Retriever.retrieve_docs (Sample.env false []) Sample.request
               (Sample.serving Sample.answers)).1)
       = Retriever.query Sample.request.
Proof.
  apply (every_hit_is_returned_or_logged (Sample.env false []) Sample.request
           (Sample.serving Sample.answers)).
  by_vm.
Defined.

Lemma response_reports_elapsed_time_witness :
  Retriever.took_ms
    (Sample.response_of
       (Retriever.retrieve_docs
          (Sample.with_clock [Sample.tenth; Sample.four_tenths]
             (Sample.env false []))
          Sample.request (Sample.serving Sample.answers)).1)
  = (5277655813324801 # 17592186044416)%Q
  /\ clock (Retriever.retrieve_docs
              (Sample.with_clock [Sample.tenth; Sample.four_tenths]
                 (Sample.env false []))
              Sample.request (Sample.serving Sample.answers)).2
     = 2%nat
  /\ (0 <= Retriever.took_ms
             (Sample.response_of
                (Retriever.retrieve_docs
                   (Sample.with_clock [Sample.tenth; Sample.four_tenths]
                      (Sample.env false []))
                   Sample.request (Sample.serving Sample.answers)).1))%Q.
Proof.
  destruct (response_reports_elapsed_time
              (Sample.with_clock [Sample.tenth; Sample.four_tenths]
                 (Sample.env false []))
              Sample.request (Sample.serving Sample.answers)
              (Sample.response_of
                 (Retriever.retrieve_docs
                    (Sample.with_clock [Sample.tenth; Sample.four_tenths]
                       (Sample.env false []))
                    Sample.request (Sample.serving Sample.answers)).1))
    as (Hms & Hclock & Hpos & _); [by_vm |].
  split_and!; [rewrite Hms; by_vm | exact Hclock | apply Hpos; discriminate].
Defined.

Lemma chunk_size_not_positive_witness :
  Indexer.split_text_into_chunks "dear reader" 0 = Raise ValueError
  /\ forall C, C < 0 -> Indexer.split_text_into_chunks "dear reader" C = Ok [].
Proof.
  apply (chunk_size_not_positive "dear reader"). discriminate.
Defined.

Lemma chunks_are_never_empty_witness :
  Forall (fun c => 1 <= len c <= 4) ["dear"; " rea"; "der"]%string
  /\ (["dear"; " rea"; "der"]%string = [] <-> "dear reader"%string = EmptyString).
Proof.
  apply (chunks_are_never_empty "dear reader" 4 ["dear"; " rea"; "der"]%string).
  - lia.
  - by_vm.
Defined.

Lemma extracted_text_is_stripped_witness :
  exists pages,
    PdfReader (Sample.env false []) Sample.padded = Ok pages
    /\ 2 = Z.of_nat (length pages)
    /\ (forall c, first_char "dear reader   yours" = Some c ->
                  Py.isspace c = false)
    /\ (forall c, last_char "dear reader   yours" = Some c ->
                  Py.isspace c = false)
    /\ (Forall blank pages -> "dear reader   yours"%string = EmptyString).
Proof.
  apply (extracted_text_is_stripped (Sample.env false []) Sample.padded
           "dear reader   yours" 2).
  by_vm.
Defined.

Lemma blank_pdf_is_skipped_witness :
  Indexer.index_document (Sample.env true []) "blank.pdf" Sample.fresh_world
  = (Indexer.SkippedEmpty, Sample.fresh_world).
Proof.
  apply (blank_pdf_is_skipped (Sample.env true []) "blank.pdf"
           Sample.fresh_world (Sample.bytes_of "   ") ["   "%string]).
  - apply (fetched_object _ Sample.objects); [reflexivity | by_vm].
  - discriminate.
  - by left.
  - by_vm.
  - by_vm.
  - repeat constructor.
Defined.

Lemma chunk_key_determines_file_and_index_witness :
  Py.encode (chunk_key "a-1" 2) = Py.encode (chunk_key "a" 12)
  <-> "a-1"%string = "a"%string /\ 2 = 12.
Proof.
  apply (chunk_key_determines_file_and_index "a-1" "a" 2 12); lia.
Defined.

Lemma up_to_date_run_changes_nothing_witness :
  Indexer.index_all_documents (Sample.env false [])
    (set_collection None Sample.library_indexed)
  = Indexer.ensure_collection_exists
      (set_collection None Sample.library_indexed)
  /\ Indexer.index_all_documents (Sample.env false [])
       (Indexer.index_all_documents (Sample.env false [])
          (set_collection None Sample.library_indexed))
     = Indexer.index_all_documents (Sample.env false [])
         (set_collection None Sample.library_indexed).
Proof.
  apply (up_to_date_run_changes_nothing (Sample.env false [])
           (set_collection None Sample.library_indexed) Sample.library).
  - reflexivity.
  - by_vm.
  - intros f data Hf. apply recorded_as_true.
    assert (Hin : (f, data) ∈ map_to_list Sample.library)
      by by apply elem_of_map_to_list.
    assert (Hall : Forall (fun fd : string * list byte =>
                     Sample.recorded_as
                       (set_collection None Sample.library_indexed) fd.1
                       (Indexer.get_file_hash (Sample.env false []) fd.2)
                     = true) (map_to_list Sample.library)).
    { apply List.Forall_forall, forallb_forall. by_vm. }
    rewrite Forall_forall in Hall. apply (Hall _ Hin).
Defined.
